(** * mock-smf: the PFCP client of [scenarios/bin/mock-smf.py]

    A shallow embedding of the session-manager emulator: the rule change
    cache ([already_sent]), the sequence allocator ([get_sequence_num]),
    the request builders, the request/response correlator
    ([send_recv_pfcp]), the command handlers and the heartbeat loop.

    Python integers are [Z]; dictionaries are [gmap]; the module's global
    variables are the fields of [Globals] and every function that reads or
    writes them is a computation in the state-and-exception monad [M]. *)

From stdpp Require Import gmap strings list.
From Stdlib Require Import ZArith Lia.

Local Open Scope string_scope.
Local Open Scope list_scope.
Local Open Scope Z_scope.

(** ** Information elements

    The codec (scapy's [pfcp] module) represents an information element as
    an object of some class, with the fields the program assigned and, for
    the compound classes, an [IE_list] of nested elements.  Equality of
    two elements ([==] in the source) is structural. *)

Inductive value : Type :=
  | VInt (n : Z)
  | VStr (s : string)
  | VNone.

Global Instance value_eq_dec : EqDecision value.
Proof. solve_decision. Defined.

Inductive IE_class : Type :=
  | IE_CreatePDR | IE_UpdatePDR | IE_PDR_Id | IE_Precedence | IE_PDI
  | IE_SourceInterface | IE_FTEID | IE_OuterHeaderRemoval
  | IE_UE_IP_Address | IE_NetworkInstance | IE_SDF_Filter
  | IE_FAR_Id | IE_QER_Id | IE_URR_Id
  | IE_CreateFAR | IE_UpdateFAR | IE_ApplyAction
  | IE_ForwardingParameters | IE_UpdateForwardingParameters
  | IE_DestinationInterface | IE_OuterHeaderCreation
  | IE_CreateQER | IE_UpdateQER | IE_GateStatus | IE_MBR | IE_GBR
  | IE_CreateURR | IE_UpdateURR | IE_MeasurementMethod
  | IE_ReportingTriggers | IE_VolumeQuota | IE_VolumeThreshold
  | IE_NodeId | IE_RecoveryTimeStamp | IE_FSEID | IE_PDNType.

Global Instance IE_class_eq_dec : EqDecision IE_class.
Proof. solve_decision. Defined.

#[warnings="-register-all"]
Inductive IE : Type :=
  | mkIE (cls : IE_class) (fields : list (string * value)) (IE_list : list IE).

Definition ie_cls (ie : IE) : IE_class := let 'mkIE c _ _ := ie in c.
Definition ie_fields (ie : IE) : list (string * value) := let 'mkIE _ f _ := ie in f.
Definition ie_list (ie : IE) : list IE := let 'mkIE _ _ l := ie in l.

Global Instance IE_eq_dec : EqDecision IE.
Proof.
  refine (fix go (x y : IE) {struct x} : Decision (x = y) :=
    let _ : EqDecision IE := @go in
    match x, y with
    | mkIE c1 f1 l1, mkIE c2 f2 l2 =>
        cast_if_and3 (decide (c1 = c2)) (decide (f1 = f2)) (decide (l1 = l2))
    end); congruence.
Defined.

(** [pfcp.IE_X()] followed by assignments to its fields. *)
Definition new_IE (cls : IE_class) (fields : list (string * value)) : IE :=
  mkIE cls fields [].

(** [ie.IE_list.append(x)] *)
Definition IE_list_append (ie : IE) (x : IE) : IE :=
  let 'mkIE c f l := ie in mkIE c f (l ++ [x]).

(** ** The rule change cache *)

(** [already_sent(rule_id, rule, sent_rule_map)]: the dictionary is
    mutated in place, so the updated dictionary is returned next to the
    result. *)
Definition already_sent (rule_id : Z) (rule : IE) (sent_rule_map : gmap Z IE)
  : bool * gmap Z IE :=
  let previous_rule := sent_rule_map !! rule_id in
  let sent_rule_map := <[rule_id := rule]> sent_rule_map in
  match previous_rule with
  | None => (false, sent_rule_map)
  | Some previous_rule => (bool_decide (previous_rule = rule), sent_rule_map)
  end.

(** The specification's vocabulary for the same operation: a candidate is
    [New] when the identifier has no entry, [Unchanged] when the entry
    equals the candidate and [Changed] otherwise; the candidate is stored
    in every case. *)
Inductive Classification : Type := New | Unchanged | Changed.

Global Instance Classification_eq_dec : EqDecision Classification.
Proof. solve_decision. Defined.

Definition classify (id : Z) (candidate : IE) (cache : gmap Z IE)
  : Classification * gmap Z IE :=
  (match cache !! id with
   | None => New
   | Some previous => if decide (previous = candidate) then Unchanged else Changed
   end,
   <[id := candidate]> cache).

(** A rule is left out of a request exactly when it is [Unchanged]. *)
Definition suppressed (c : Classification) : bool :=
  match c with Unchanged => true | New | Changed => false end.

(** The four rule kinds and their caches. *)
Inductive rule_kind : Type := PDR | FAR | URR | QER.

Record SentRules : Type := mkSentRules {
  sent_pdrs : gmap Z IE;
  sent_fars : gmap Z IE;
  sent_urrs : gmap Z IE;
  sent_qers : gmap Z IE;
}.

Definition no_sent_rules : SentRules := mkSentRules ∅ ∅ ∅ ∅.

Definition cache_of (k : rule_kind) (s : SentRules) : gmap Z IE :=
  match k with
  | PDR => sent_pdrs s
  | FAR => sent_fars s
  | URR => sent_urrs s
  | QER => sent_qers s
  end.

Definition set_cache (k : rule_kind) (m : gmap Z IE) (s : SentRules) : SentRules :=
  match k with
  | PDR => mkSentRules m (sent_fars s) (sent_urrs s) (sent_qers s)
  | FAR => mkSentRules (sent_pdrs s) m (sent_urrs s) (sent_qers s)
  | URR => mkSentRules (sent_pdrs s) (sent_fars s) m (sent_qers s)
  | QER => mkSentRules (sent_pdrs s) (sent_fars s) (sent_urrs s) m
  end.

(** [already_sent(id, rule, sent_<kind>s)] *)
Definition already_sent_kind (k : rule_kind) (rule_id : Z) (rule : IE) (s : SentRules)
  : bool * SentRules :=
  let '(b, m) := already_sent rule_id rule (cache_of k s) in (b, set_cache k m s).

Definition classify_kind (k : rule_kind) (id : Z) (candidate : IE) (s : SentRules)
  : Classification * SentRules :=
  let '(c, m) := classify id candidate (cache_of k s) in (c, set_cache k m s).

(** [clear_sent_rules()] *)
Definition clear_sent_rules (s : SentRules) : SentRules := no_sent_rules.

(** ** Messages, packets and what the peer sends back *)

(** The PFCP header, [pfcp.PFCP()]: a field is [None] until the program
    assigns it. *)
Module PFCP.
Record t : Type := mk {
  version : option Z;
  S : option Z;
  message_type : option Z;
  seid : option Z;
  seq : option Z;
}.
Definition new : t := mk None None None None None.
End PFCP.

Inductive Message_class : Type :=
  | PFCPAssociationSetupRequest
  | PFCPAssociationReleaseRequest
  | PFCPSessionEstablishmentRequest
  | PFCPSessionModificationRequest
  | PFCPSessionDeletionRequest
  | PFCPHeartbeatRequest.

(** A request body: its class, its [version] field when assigned, and its
    [IE_list]. *)
Record Message : Type := mkMessage {
  msg_class : Message_class;
  msg_version : option Z;
  msg_IE_list : list IE;
}.

Definition new_Message (c : Message_class) : Message := mkMessage c None [].

Definition Message_append (m : Message) (ie : IE) : Message :=
  mkMessage (msg_class m) (msg_version m) (msg_IE_list m ++ [ie]).

Definition Message_set_version (v : Z) (m : Message) : Message :=
  mkMessage (msg_class m) (Some v) (msg_IE_list m).

(** [IP(src=.., dst=..) / UDP() / pfcp_header / request] *)
Record Packet : Type := mkPacket {
  ip_src : string;
  ip_dst : string;
  pfcp_header : PFCP.t;
  pfcp_payload : Message;
}.

(** An element of a dissected response, with the attributes
    [send_recv_pfcp] reads. *)
Module DecodedIE.
Record t : Type := mk {
  ie_type : Z;
  seid : Z;
  ipv4 : string;
  cause : Z;
}.
End DecodedIE.

(** The datagram [sock.recvfrom] delivers, after [response.dissect]. *)
Record Response : Type := mkResponse {
  data : string;
  message_type : Z;
  IE_list : list DecodedIE.t;
}.

(** [pfcp.PFCPmessageType], the codec's table of message kinds. *)
Definition PFCPmessageType_items : list (Z * string) :=
  [ (1, "heartbeat_request"); (2, "heartbeat_response");
    (3, "pfd_management_request"); (4, "pfd_management_response");
    (5, "association_setup_request"); (6, "association_setup_response");
    (7, "association_update_request"); (8, "association_update_response");
    (9, "association_release_request"); (10, "association_release_response");
    (11, "version_not_supported_response");
    (12, "node_report_request"); (13, "node_report_response");
    (14, "session_set_deletion_request"); (15, "session_set_deletion_response");
    (50, "session_establishment_request"); (51, "session_establishment_response");
    (52, "session_modification_request"); (53, "session_modification_response");
    (54, "session_deletion_request"); (55, "session_deletion_response");
    (56, "session_report_request"); (57, "session_report_response") ].

Definition PFCPmessageType : gmap Z string := list_to_map PFCPmessageType_items.

(** [MSG_TYPES = {name: num for num, name in pfcp.PFCPmessageType.items()}] *)
Definition MSG_TYPES : gmap string Z :=
  list_to_map ((λ p : Z * string, (p.2, p.1)) <$> PFCPmessageType_items).

Definition HEARTBEAT_PERIOD : Z := 5.
Definition UDP_PORT_PFCP : Z := 8805.
Definition IFACE_ACCESS : Z := 0.
Definition IFACE_CORE : Z := 1.

(** ** Sessions and the module's global variables *)

Module Session.
Record t : Type := mk {
  our_seid : Z;
  peer_seid : option Z;
  sent_pdrs : gmap Z IE;
  sent_fars : gmap Z IE;
  sent_urrs : gmap Z IE;
  sent_qers : gmap Z IE;
}.
End Session.

(** What the program prints. *)
Inductive output : Type :=
  | Print (line : string)
  | Show_packet (pkt : Packet)
  | Show_response (r : Response)
  | Received_message (data : string)
  | Decoded_node_type (ie : DecodedIE.t)
  | Decoded_cause (cause : Z)
  | FSEID_seid_and_ip (seid : Z) (ipv4 : string)
  | Error_expected_but_received (expected received : string).

(** An entry appended to the capture file. *)
Inductive captured : Type :=
  | Captured_packet (pkt : Packet)
  | Captured_response (r : Response).

(** The global non-constants of the module, followed by the names that
    the functions read or assign at module level without a binding among
    them ([our_seid], [peer_seid] and the four [sent_*] dictionaries, here
    [sent_rules]), and by the program's effects on the outside: the
    packets handed to [scapy.send], the capture file and the printed
    lines. *)
Record Globals : Type := mkGlobals {
  our_addr : string;
  peer_addr : string;
  sequence_number : Z;
  association_established : bool;
  script_terminating : bool;
  active_sessions : gmap Z Session.t;
  pcap_filename : option string;
  our_seid : Z;
  peer_seid : option Z;
  sent_rules : SentRules;
  wire : list Packet;
  pcap : list captured;
  stdout : list output;
}.

Definition set_sequence_number (v : Z) (g : Globals) : Globals :=
  mkGlobals (our_addr g) (peer_addr g) v (association_established g)
    (script_terminating g) (active_sessions g) (pcap_filename g) (our_seid g)
    (peer_seid g) (sent_rules g) (wire g) (pcap g) (stdout g).

Definition set_association_established (v : bool) (g : Globals) : Globals :=
  mkGlobals (our_addr g) (peer_addr g) (sequence_number g) v
    (script_terminating g) (active_sessions g) (pcap_filename g) (our_seid g)
    (peer_seid g) (sent_rules g) (wire g) (pcap g) (stdout g).

Definition set_script_terminating (v : bool) (g : Globals) : Globals :=
  mkGlobals (our_addr g) (peer_addr g) (sequence_number g)
    (association_established g) v (active_sessions g) (pcap_filename g)
    (our_seid g) (peer_seid g) (sent_rules g) (wire g) (pcap g) (stdout g).

Definition set_active_sessions (v : gmap Z Session.t) (g : Globals) : Globals :=
  mkGlobals (our_addr g) (peer_addr g) (sequence_number g)
    (association_established g) (script_terminating g) v (pcap_filename g)
    (our_seid g) (peer_seid g) (sent_rules g) (wire g) (pcap g) (stdout g).

Definition set_peer_seid (v : option Z) (g : Globals) : Globals :=
  mkGlobals (our_addr g) (peer_addr g) (sequence_number g)
    (association_established g) (script_terminating g) (active_sessions g)
    (pcap_filename g) (our_seid g) v (sent_rules g) (wire g) (pcap g) (stdout g).

Definition set_sent_rules (v : SentRules) (g : Globals) : Globals :=
  mkGlobals (our_addr g) (peer_addr g) (sequence_number g)
    (association_established g) (script_terminating g) (active_sessions g)
    (pcap_filename g) (our_seid g) (peer_seid g) v (wire g) (pcap g) (stdout g).

Definition set_wire (v : list Packet) (g : Globals) : Globals :=
  mkGlobals (our_addr g) (peer_addr g) (sequence_number g)
    (association_established g) (script_terminating g) (active_sessions g)
    (pcap_filename g) (our_seid g) (peer_seid g) (sent_rules g) v (pcap g) (stdout g).

Definition set_pcap (v : list captured) (g : Globals) : Globals :=
  mkGlobals (our_addr g) (peer_addr g) (sequence_number g)
    (association_established g) (script_terminating g) (active_sessions g)
    (pcap_filename g) (our_seid g) (peer_seid g) (sent_rules g) (wire g) v (stdout g).

Definition set_stdout (v : list output) (g : Globals) : Globals :=
  mkGlobals (our_addr g) (peer_addr g) (sequence_number g)
    (association_established g) (script_terminating g) (active_sessions g)
    (pcap_filename g) (our_seid g) (peer_seid g) (sent_rules g) (wire g) (pcap g) v.

(** The session the module-level names stand for, as the [craft_*]
    functions read it. *)
Definition module_session (g : Globals) : Session.t :=
  Session.mk (our_seid g) (peer_seid g)
    (sent_pdrs (sent_rules g)) (sent_fars (sent_rules g))
    (sent_urrs (sent_rules g)) (sent_qers (sent_rules g)).

(** ** Exceptions and the monad of the program *)

Inductive exn : Type :=
  | KeyError (key : Z)
  | KeyError_name (key : string)
  | UnboundLocalError (name : string)
  | StopIteration
  | AddressValueError
  | Exception (msg : string)
  | SystemExit.

(** [except Exception] catches everything here but [SystemExit]. *)
Definition is_Exception (e : exn) : bool :=
  match e with SystemExit => false | _ => true end.

Inductive result (A : Type) : Type :=
  | Return (a : A)
  | Raise (e : exn).
Arguments Return {A} a.
Arguments Raise {A} e.

Global Instance result_ret : MRet result := λ A a, Return a.
Global Instance result_bind : MBind result := λ A B f r,
  match r with Return a => f a | Raise e => Raise e end.

Definition M (A : Type) : Type := Globals → result A * Globals.

Global Instance M_ret : MRet M := λ A a g, (Return a, g).
Global Instance M_bind : MBind M := λ A B f c g,
  match c g with
  | (Return a, g') => f a g'
  | (Raise e, g') => (Raise e, g')
  end.

Definition raise {A} (e : exn) : M A := λ g, (Raise e, g).
Definition lift {A} (r : result A) : M A := λ g, (r, g).
Definition gets {A} (f : Globals → A) : M A := λ g, (Return (f g), g).
Definition modify (f : Globals → Globals) : M unit := λ g, (Return tt, f g).
Definition print (o : output) : M unit := modify (λ g, set_stdout (stdout g ++ [o]) g).
Definition when (b : bool) (c : M unit) : M unit := if b then c else mret tt.

(** [d[key]] for the two dictionaries of message kinds. *)
Definition MSG_TYPES_at (name : string) : M Z :=
  match MSG_TYPES !! name with Some n => mret n | None => raise (KeyError_name name) end.

Definition PFCPmessageType_at (n : Z) : M string :=
  match PFCPmessageType !! n with Some s => mret s | None => raise (KeyError n) end.

(** ** Capture, addresses and sequence numbers *)

(** [capture(pkt)] *)
Definition capture (c : captured) : M unit :=
  pcap_filename ← gets pcap_filename;
  match pcap_filename with
  | Some _ => modify (λ g, set_pcap (pcap g ++ [c]) g)
  | None => mret tt
  end.

(** [ipaddress.IPv4Network]: the network address as a 32-bit number and the
    prefix length. *)
Record IPv4Network : Type := mkIPv4Network {
  network_address : Z;
  prefixlen : Z;
}.

Definition max_prefixlen : Z := 32.

(** [IPv4Address(n)] for an integer [n]. *)
Definition IPv4Address (n : Z) : result Z :=
  if bool_decide (0 ≤ n < 2 ^ 32) then Return n else Raise AddressValueError.

(** [get_addresses_from_prefix(prefix, count)] is a generator: nothing of
    its body runs before the first [next].  [AddrGen_created] is the
    generator before that and [AddrGen_suspended] the generator stopped at
    its [yield].  An exception leaving [next] also leaves the function that
    owns the generator, so no state is kept for a generator that raised. *)
Inductive AddrGen : Type :=
  | AddrGen_created (prefix : IPv4Network) (count : Z)
  | AddrGen_suspended (base_addr count offset : Z).

Definition get_addresses_from_prefix (prefix : IPv4Network) (count : Z) : AddrGen :=
  AddrGen_created prefix count.

(** The [while offset < count: yield ...] loop, entered with [offset]. *)
Definition AddrGen_loop (base_addr count offset : Z) : result (Z * AddrGen) :=
  if bool_decide (offset < count) then
    a ← IPv4Address (base_addr + offset);
    Return (a, AddrGen_suspended base_addr count offset)
  else Raise StopIteration.

(** [next(ue_addr_gen)] *)
Definition AddrGen_next (gen : AddrGen) : result (Z * AddrGen) :=
  match gen with
  | AddrGen_created prefix count =>
      if bool_decide (2 ^ (max_prefixlen - prefixlen prefix) ≤ count) then
        Raise (Exception "trying to generate more addresses than a prefix contains!")
      else
        let base_addr := network_address prefix + 1 in
        AddrGen_loop base_addr count 0
  | AddrGen_suspended base_addr count offset =>
      AddrGen_loop base_addr count (offset + 1)
  end.

(** [iter(range(start, stop))] and [next] on it: the values still to come. *)
Definition range (start stop : Z) : list Z := seqZ start (stop - start).

Definition next (gen : list Z) : result (Z * list Z) :=
  match gen with
  | x :: gen' => Return (x, gen')
  | [] => Raise StopIteration
  end.

(** [get_sequence_num(reset)], run without interruption by another thread
    (the interleavings of two callers are the subject of [Module
    Interleaving] below). *)
Definition get_sequence_num (reset : bool) : M Z := λ g,
  let g := if reset then set_sequence_number 0 g else g in
  let g := set_sequence_number (sequence_number g + 1) g in
  (Return (sequence_number g), g).

(** ** Building information elements *)

Definition opt_value (o : option Z) : value :=
  match o with Some n => VInt n | None => VNone end.

Definition int (b : bool) : Z := if b then 1 else 0.

(** [craft_fseid(seid, address)] *)
Definition craft_fseid (seid : Z) (address : string) : IE :=
  new_IE IE_FSEID [("v4", VInt 1); ("seid", VInt seid); ("ipv4", VStr address)].

(** [craft_pdr(session, id, far_id, qer_id, urr_id, src_iface, ue_addr,
    from_tunnel, tunnel_dst, teid, precedence)] *)
Definition craft_pdr (session : Session.t) (id far_id qer_id urr_id src_iface : Z)
    (ue_addr : option Z) (from_tunnel : bool) (tunnel_dst teid : option Z)
    (precedence : Z) : result IE :=
  let pdr := new_IE (if bool_decide (is_Some (Session.sent_pdrs session !! id))
                     then IE_UpdatePDR else IE_CreatePDR) [] in
  let pdr := IE_list_append pdr (new_IE IE_PDR_Id [("id", VInt id)]) in
  let pdr := IE_list_append pdr (new_IE IE_Precedence [("precedence", VInt precedence)]) in
  let pdi := new_IE IE_PDI [] in
  let pdi := IE_list_append pdi
               (new_IE IE_SourceInterface [("interface", VInt src_iface)]) in
  '(pdr, pdi) ←
    (if from_tunnel then
       match tunnel_dst, teid with
       | Some tunnel_dst, Some teid =>
           let pdi := IE_list_append pdi
             (new_IE IE_FTEID
                [("V4", VInt 1); ("TEID", VInt teid); ("ipv4", VInt tunnel_dst)]) in
           let pdr := IE_list_append pdr
             (new_IE IE_OuterHeaderRemoval [("header", VInt 0)]) in
           Return (pdr, pdi)
       | _, _ =>
           Raise (Exception "ERROR: tunnel dst and teid should be provided for tunnel PDR")
       end
     else
       match ue_addr with
       | None => Raise (Exception "UE address required for downlink PDRs!")
       | Some ue_addr =>
           let pdi := IE_list_append pdi
             (new_IE IE_UE_IP_Address [("V4", VInt 1); ("ipv4", VInt ue_addr)]) in
           let pdi := IE_list_append pdi
             (new_IE IE_NetworkInstance
                [("instance", VStr "internetinternetinternetinterne")]) in
           Return (pdr, pdi)
       end);
  let pdi := IE_list_append pdi
    (new_IE IE_SDF_Filter
       [("FD", VInt 1);
        ("flow_description", VStr "0.0.0.0/0 0.0.0.0/0 0 : 65535 0 : 65535 0x0/0x0")]) in
  let pdr := IE_list_append pdr pdi in
  let pdr := IE_list_append pdr (new_IE IE_FAR_Id [("id", VInt far_id)]) in
  let pdr := IE_list_append pdr (new_IE IE_QER_Id [("id", VInt qer_id)]) in
  let pdr := IE_list_append pdr (new_IE IE_URR_Id [("id", VInt urr_id)]) in
  Return pdr.

(** [craft_far(session, id, forward_flag, drop_flag, buffer_flag,
    dst_iface, tunnel, tunnel_dst, teid)]; its body also reads [update],
    which the callers pass. *)
Definition craft_far (session : Session.t) (id : Z) (update : bool)
    (forward_flag drop_flag buffer_flag : bool) (dst_iface : option Z)
    (tunnel : bool) (tunnel_dst teid : option Z) : result IE :=
  let far := new_IE (if bool_decide (is_Some (Session.sent_fars session !! id))
                     then IE_UpdateFAR else IE_CreateFAR) [] in
  let far := IE_list_append far (new_IE IE_FAR_Id [("id", VInt id)]) in
  let far := IE_list_append far
    (new_IE IE_ApplyAction
       [("FORW", VInt (int forward_flag)); ("DROP", VInt (int drop_flag));
        ("BUFF", VInt (int buffer_flag))]) in
  let forward_param :=
    new_IE (if negb update then IE_ForwardingParameters
            else IE_UpdateForwardingParameters) [] in
  let forward_param := IE_list_append forward_param
    (new_IE IE_DestinationInterface [("interface", opt_value dst_iface)]) in
  forward_param ←
    (if tunnel then
       if (negb buffer_flag && bool_decide (tunnel_dst = None))
          || bool_decide (teid = None) then
         Raise (Exception "ERROR: tunnel dst and teid should be provided for tunnel FAR")
       else
         Return (IE_list_append forward_param
           (new_IE IE_OuterHeaderCreation
              [("GTPUUDPIPV4", VInt 1); ("ipv4", opt_value tunnel_dst);
               ("TEID", if negb buffer_flag then opt_value teid else VInt 0)]))
     else Return forward_param);
  Return (IE_list_append far forward_param).

(** [craft_qer(session, id, max_bitrate_up, max_bitrate_down,
    guaranteed_bitrate_up, guaranteed_bitrate_down)] *)
Definition craft_qer (session : Session.t) (id : Z)
    (max_bitrate_up max_bitrate_down guaranteed_bitrate_up guaranteed_bitrate_down : Z)
  : IE :=
  let qer := new_IE (if bool_decide (is_Some (Session.sent_qers session !! id))
                     then IE_UpdateQER else IE_CreateQER) [] in
  let qer := IE_list_append qer (new_IE IE_QER_Id [("id", VInt id)]) in
  let qer := IE_list_append qer (new_IE IE_GateStatus []) in
  let qer := IE_list_append qer
    (new_IE IE_MBR [("ul", VInt max_bitrate_up); ("dl", VInt max_bitrate_down)]) in
  let qer := IE_list_append qer
    (new_IE IE_GBR [("ul", VInt guaranteed_bitrate_up);
                    ("dl", VInt guaranteed_bitrate_down)]) in
  qer.

(** [craft_urr(session, id, quota, threshold)] *)
Definition craft_urr (session : Session.t) (id quota threshold : Z) : IE :=
  let urr := new_IE (if bool_decide (is_Some (Session.sent_urrs session !! id))
                     then IE_UpdateURR else IE_CreateURR) [] in
  let urr := IE_list_append urr (new_IE IE_URR_Id [("id", VInt id)]) in
  let urr := IE_list_append urr (new_IE IE_MeasurementMethod [("VOLUM", VInt 1)]) in
  let urr := IE_list_append urr
    (new_IE IE_ReportingTriggers [("volume_threshold", VInt 1); ("volume_quota", VInt 1)]) in
  let urr := IE_list_append urr
    (new_IE IE_VolumeQuota [("TOVOL", VInt 1); ("total", VInt quota)]) in
  let urr := IE_list_append urr
    (new_IE IE_VolumeThreshold [("TOVOL", VInt 1); ("total", VInt threshold)]) in
  urr.

(** ** Commands and their arguments *)

Inductive Choice : Type :=
  | associate | create | modify_ | delete_ | disassociate | interrupt | stop.

(** The [argparse.Namespace] the handlers receive, with the attributes
    they read. *)
Record Namespace : Type := mkNamespace {
  choice : Choice;
  buffer : bool;
  ue_count : Z;
  ue_pool : IPv4Network;
  s1u_addr : Z;
  enb_addr : Z;
  seid_base : Z;
  teid_base : Z;
  pdr_base : Z;
  far_base : Z;
  urr_base : Z;
  qer_base : Z;
  pdr_precedence : Z;
}.


(** ** Adding the rules to a request *)

(** The generators [add_rules_to_request] creates before its loop. *)
Record Generators : Type := mkGenerators {
  ue_addr_gen : AddrGen;
  seid_gen : list Z;
  teid_gen : list Z;
  far_id_gen : list Z;
  pdr_id_gen : list Z;
  urr_id_gen : list Z;
  qer_id_gen : list Z;
}.

Definition rule_count (args : Namespace) : Z := ue_count args * 2.

Definition generators (args : Namespace) : Generators :=
  let rule_count := rule_count args in
  {| ue_addr_gen := get_addresses_from_prefix (ue_pool args) (ue_count args);
     seid_gen := range (seid_base args) (seid_base args + rule_count);
     teid_gen := range (teid_base args) (teid_base args + rule_count);
     far_id_gen := range (far_base args) (far_base args + rule_count);
     pdr_id_gen := range (pdr_base args) (pdr_base args + rule_count);
     urr_id_gen := range (urr_base args) (urr_base args + rule_count);
     qer_id_gen := range (urr_base args) (urr_base args + rule_count) |}.

(** [if force_add or not already_sent(id, rule, sent_<kind>s):
        request.IE_list.append(rule)]
    With [force_add] the [or] does not evaluate [already_sent]. *)
Definition append_unless_sent (force_add : bool) (k : rule_kind) (id : Z) (rule : IE)
    (request : Message) : M Message :=
  if force_add then mret (Message_append request rule)
  else λ g,
    let '(sent, s) := already_sent_kind k id rule (sent_rules g) in
    (Return (if negb sent then Message_append request rule else request),
     set_sent_rules s g).

(** The values one pass of the loop takes from the generators. *)
Record Drawn : Type := mkDrawn {
  seid : Z; ue_addr : Z; teid1 : Z; teid2 : Z;
  pdr_id1 : Z; pdr_id2 : Z; far_id1 : Z; far_id2 : Z;
  urr_id1 : Z; urr_id2 : Z; qer_id1 : Z; qer_id2 : Z;
}.

Definition draw (gens : Generators) : result (Drawn * Generators) :=
  '(seid, seid_gen) ← next (seid_gen gens);
  '(ue_addr, ue_addr_gen) ← AddrGen_next (ue_addr_gen gens);
  '(teid1, teid_gen) ← next (teid_gen gens);
  '(teid2, teid_gen) ← next teid_gen;
  '(pdr_id1, pdr_id_gen) ← next (pdr_id_gen gens);
  '(pdr_id2, pdr_id_gen) ← next pdr_id_gen;
  '(far_id1, far_id_gen) ← next (far_id_gen gens);
  '(far_id2, far_id_gen) ← next far_id_gen;
  '(urr_id1, urr_id_gen) ← next (urr_id_gen gens);
  '(urr_id2, urr_id_gen) ← next urr_id_gen;
  '(qer_id1, qer_id_gen) ← next (qer_id_gen gens);
  '(qer_id2, qer_id_gen) ← next qer_id_gen;
  Return (mkDrawn seid ue_addr teid1 teid2 pdr_id1 pdr_id2 far_id1 far_id2
            urr_id1 urr_id2 qer_id1 qer_id2,
          mkGenerators ue_addr_gen seid_gen teid_gen far_id_gen pdr_id_gen
            urr_id_gen qer_id_gen).

(** [if add_pdrs: ...] *)
Definition add_pdrs_block (args : Namespace) (force_add : bool) (d : Drawn)
    (request : Message) : M Message :=
  session ← gets module_session;
  pdr1 ← lift (craft_pdr session (pdr_id1 d) (far_id1 d) (qer_id1 d) (urr_id1 d)
                 IFACE_ACCESS None true (Some (s1u_addr args)) (Some (teid1 d))
                 (pdr_precedence args));
  request ← append_unless_sent force_add PDR (pdr_id1 d) pdr1 request;
  session ← gets module_session;
  pdr2 ← lift (craft_pdr session (pdr_id2 d) (far_id2 d) (qer_id2 d) (urr_id2 d)
                 IFACE_CORE (Some (ue_addr d)) false None None 2);
  append_unless_sent force_add PDR (pdr_id2 d) pdr2 request.

(** [if add_fars: ...] *)
Definition add_fars_block (args : Namespace) (update force_add : bool) (d : Drawn)
    (request : Message) : M Message :=
  session ← gets module_session;
  far1 ← lift (craft_far session (far_id1 d) update true false false
                 (Some IFACE_CORE) false None None);
  request ← append_unless_sent force_add FAR (far_id1 d) far1 request;
  session ← gets module_session;
  far2 ← lift (craft_far session (far_id2 d) update true false (buffer args)
                 (Some IFACE_ACCESS) update (Some (enb_addr args)) (Some (teid2 d)));
  append_unless_sent force_add FAR (far_id2 d) far2 request.

(** [if add_qers: ...] *)
Definition add_qers_block (force_add : bool) (d : Drawn) (request : Message)
  : M Message :=
  session ← gets module_session;
  let qer1 := craft_qer session (qer_id1 d) 12345678 12345678 12345678 12345678 in
  request ← append_unless_sent force_add QER (qer_id1 d) qer1 request;
  session ← gets module_session;
  let qer2 := craft_qer session (qer_id2 d) 12345678 12345678 12345678 12345678 in
  append_unless_sent force_add QER (qer_id2 d) qer2 request.

(** [if add_urrs: ...] *)
Definition add_urrs_block (force_add : bool) (d : Drawn) (request : Message)
  : M Message :=
  session ← gets module_session;
  let urr1 := craft_urr session (urr_id1 d) 100000 40000 in
  request ← append_unless_sent force_add URR (urr_id1 d) urr1 request;
  session ← gets module_session;
  let urr2 := craft_urr session (urr_id2 d) 100000 50000 in
  append_unless_sent force_add URR (urr_id2 d) urr2 request.

(** The body of [for ue_index in range(args.ue_count)]. *)
Definition add_rules_for_ue (args : Namespace)
    (update add_pdrs add_fars add_urrs add_qers force_add : bool)
    (st : Generators * Message) : M (Generators * Message) :=
  let '(gens, request) := st in
  '(d, gens) ← lift (draw gens);
  request ← (if add_pdrs then add_pdrs_block args force_add d request
             else mret request);
  request ← (if add_fars then add_fars_block args update force_add d request
             else mret request);
  request ← (if add_qers then add_qers_block force_add d request
             else mret request);
  request ← (if add_urrs then add_urrs_block force_add d request
             else mret request);
  mret (gens, request).

(** [for _ in range(n): s = body(s)] *)
Fixpoint for_range {S : Type} (n : nat) (body : S → M S) (s : S) : M S :=
  match n with
  | O => mret s
  | Datatypes.S n => s ← body s; for_range n body s
  end.

(** [add_rules_to_request(args, request, update, add_pdrs, add_fars,
    add_urrs, add_qers, force_add)]: the request is changed in place, and
    is returned here. *)
Definition add_rules_to_request (args : Namespace) (request : Message)
    (update add_pdrs add_fars add_urrs add_qers force_add : bool) : M Message :=
  '(_, request) ← for_range (Z.to_nat (ue_count args))
       (add_rules_for_ue args update add_pdrs add_fars add_urrs add_qers force_add)
       (generators args, request);
  mret request.

(** ** Building requests *)

Definition make_packet (pfcp_header : PFCP.t) (request : Message) : M Packet :=
  our_addr ← gets our_addr;
  peer_addr ← gets peer_addr;
  mret (mkPacket our_addr peer_addr pfcp_header request).

(** [craft_pfcp_association_setup_packet()] *)
Definition craft_pfcp_association_setup_packet : M Packet :=
  let pfcp_header := PFCP.new in
  let setup_request := new_Message PFCPAssociationSetupRequest in
  let setup_request := Message_set_version 1 setup_request in
  our_addr ← gets our_addr;
  let ie1 := new_IE IE_NodeId [("ipv4", VStr our_addr)] in
  let setup_request := Message_append setup_request ie1 in
  let ie2 := new_IE IE_RecoveryTimeStamp [] in
  let setup_request := Message_append setup_request ie2 in
  make_packet pfcp_header setup_request.

(** [craft_pfcp_association_release_packet()] *)
Definition craft_pfcp_association_release_packet : M Packet :=
  let pfcp_header := PFCP.new in
  let release_request := new_Message PFCPAssociationReleaseRequest in
  let release_request := Message_set_version 1 release_request in
  our_addr ← gets our_addr;
  let ie1 := new_IE IE_NodeId [("ipv4", VStr our_addr)] in
  let release_request := Message_append release_request ie1 in
  make_packet pfcp_header release_request.

(** [craft_pfcp_session_est_packet(args)] *)
Definition craft_pfcp_session_est_packet (args : Namespace) : M Packet :=
  message_type ← MSG_TYPES_at "session_establishment_request";
  seq ← get_sequence_num false;
  let pfcp_header := PFCP.mk (Some 1) (Some 1) (Some message_type) (Some 0) (Some seq) in
  let establishment_request := new_Message PFCPSessionEstablishmentRequest in
  our_addr ← gets our_addr;
  let nodeid := new_IE IE_NodeId [("ipv4", VStr our_addr)] in
  let establishment_request := Message_append establishment_request nodeid in
  our_seid ← gets our_seid;
  let fseid := craft_fseid our_seid our_addr in
  let establishment_request := Message_append establishment_request fseid in
  let pdn_type := new_IE IE_PDNType [] in
  let establishment_request := Message_append establishment_request pdn_type in
  establishment_request ←
    add_rules_to_request args establishment_request false true true true true false;
  make_packet pfcp_header establishment_request.

(** [craft_pfcp_session_modify_packet(args)] *)
Definition craft_pfcp_session_modify_packet (args : Namespace) : M Packet :=
  message_type ← MSG_TYPES_at "session_modification_request";
  peer_seid ← gets peer_seid;
  if bool_decide (peer_seid = Some (-1)) then
    raise (Exception "Peer SEID has not yet been received.")
  else
    seq ← get_sequence_num false;
    let pfcp_header :=
      PFCP.mk (Some 1) (Some 1) (Some message_type) peer_seid (Some seq) in
    let modification_request := new_Message PFCPSessionModificationRequest in
    our_seid ← gets our_seid;
    our_addr ← gets our_addr;
    let fseid := craft_fseid our_seid our_addr in
    let modification_request := Message_append modification_request fseid in
    modification_request ←
      add_rules_to_request args modification_request true false true false false false;
    make_packet pfcp_header modification_request.

(** [craft_pfcp_session_delete_packet(session)] *)
Definition craft_pfcp_session_delete_packet (session : Session.t) : M Packet :=
  message_type ← MSG_TYPES_at "session_deletion_request";
  match Session.peer_seid session with
  | None => raise (Exception "Peer SEID has not yet been received.")
  | Some peer_seid =>
      seq ← get_sequence_num false;
      let pfcp_header :=
        PFCP.mk (Some 1) (Some 1) (Some message_type) (Some peer_seid) (Some seq) in
      let deletion_request := new_Message PFCPSessionDeletionRequest in
      our_addr ← gets our_addr;
      let fseid := craft_fseid (Session.our_seid session) our_addr in
      let deletion_request := Message_append deletion_request fseid in
      make_packet pfcp_header deletion_request
  end.

(** ** The request/response correlator *)

(** [scapy.send(pkt)] *)
Definition send (pkt : Packet) : M unit := modify (λ g, set_wire (wire g ++ [pkt]) g).

(** The body of [for ie in response.payload.IE_list]. *)
Definition handle_ie (verbosity : Z) (ie : DecodedIE.t) : M unit :=
  when (bool_decide (verbosity > 0))
    (if bool_decide (DecodedIE.ie_type ie = 60) then print (Decoded_node_type ie)
     else if bool_decide (DecodedIE.ie_type ie = 19) then
       print (Decoded_cause (DecodedIE.cause ie))
     else if bool_decide (DecodedIE.ie_type ie = 57) then
       print (Print "FSEID recieved ");;
       print (FSEID_seid_and_ip (DecodedIE.seid ie) (DecodedIE.ipv4 ie))
     else if bool_decide (DecodedIE.ie_type ie = 96) then
       print (Print "recovery timestamp received")
     else if bool_decide (DecodedIE.ie_type ie = 116) then
       print (Print "decoded ip resource information received")
     else mret tt);;
  when (bool_decide (DecodedIE.ie_type ie = 57))
    (modify (set_peer_seid (Some (DecodedIE.seid ie)))).

Fixpoint for_each {A : Type} (l : list A) (body : A → M unit) : M unit :=
  match l with
  | [] => mret tt
  | x :: l => body x;; for_each l body
  end.

(** [send_recv_pfcp(pkt, expected_response_type, verbosity)]; [response] is
    the reply the socket delivers. *)
Definition send_recv_pfcp (pkt : Packet) (expected_response_type : Z) (verbosity : Z)
    (response : Response) : M unit :=
  when (bool_decide (verbosity > 1)) (print (Show_packet pkt));;
  capture (Captured_packet pkt);;
  send pkt;;
  when (bool_decide (verbosity > 0)) (print (Received_message (data response)));;
  capture (Captured_response response);;
  when (bool_decide (verbosity > 1)) (print (Show_response response));;
  if bool_decide (message_type response = expected_response_type) then
    for_each (IE_list response) (handle_ie verbosity)
  else
    expected ← PFCPmessageType_at expected_response_type;
    received ← PFCPmessageType_at (message_type response);
    print (Error_expected_but_received expected received).

(** ** The command handlers *)

(** [setup_pfcp_association(args)] *)
Definition setup_pfcp_association (args : Namespace) (response : Response) : M unit :=
  get_sequence_num true;;
  pkt ← craft_pfcp_association_setup_packet;
  expected ← MSG_TYPES_at "association_setup_response";
  send_recv_pfcp pkt expected 0 response;;
  modify (set_association_established true).

(** [teardown_pfcp_association(args)] *)
Definition teardown_pfcp_association (args : Namespace) (response : Response) : M unit :=
  pkt ← craft_pfcp_association_release_packet;
  expected ← MSG_TYPES_at "association_release_response";
  send_recv_pfcp pkt expected 0 response;;
  modify (set_association_established false).

(** [create_pfcp_sessions(args)] *)
Definition create_pfcp_sessions (args : Namespace) (response : Response) : M unit :=
  let session_ids := range (seid_base args) (seid_base args + ue_count args) in
  pkt ← craft_pfcp_session_est_packet args;
  expected ← MSG_TYPES_at "session_establishment_response";
  send_recv_pfcp pkt expected 0 response.

(** [modify_pfcp_sessions(args)] *)
Definition modify_pfcp_sessions (args : Namespace) (response : Response) : M unit :=
  pkt ← craft_pfcp_session_modify_packet args;
  expected ← MSG_TYPES_at "session_modification_response";
  send_recv_pfcp pkt expected 0 response.

(** The loop of [delete_pfcp_sessions]; [pkt] is [None] while the local
    variable is unbound. *)
Fixpoint delete_loop (seids : list Z) (pkt : option Packet) : M (option Packet) :=
  match seids with
  | [] => mret pkt
  | seid :: seids =>
      active_sessions ← gets active_sessions;
      match active_sessions !! seid with
      | None => raise (KeyError seid)
      | Some session =>
          pkt ← craft_pfcp_session_delete_packet session;
          delete_loop seids (Some pkt)
      end
  end.

(** [delete_pfcp_sessions(args)] *)
Definition delete_pfcp_sessions (args : Namespace) (response : Response) : M unit :=
  pkt ← delete_loop (range (seid_base args) (seid_base args + ue_count args)) None;
  match pkt with
  | None => raise (UnboundLocalError "pkt")
  | Some pkt =>
      expected ← MSG_TYPES_at "session_deletion_response";
      send_recv_pfcp pkt expected 0 response;;
      modify (λ g, set_sent_rules (clear_sent_rules (sent_rules g)) g)
  end.

(** [interrupt_association(args)] *)
Definition interrupt_association (args : Namespace) : M unit :=
  modify (set_association_established false);;
  modify (set_active_sessions ∅).

(** [terminate(args)] *)
Definition terminate (args : Namespace) (response : Response) : M unit :=
  association_established ← gets association_established;
  when association_established
    (print (Print "Exiting before association deleted. Deleting..");;
     delete_pfcp_sessions args response);;
  modify (set_script_terminating true);;
  raise SystemExit.

(** ** The two threads *)

(** The heartbeat request of [send_pfcp_heartbeats] and its exchange. *)
Definition send_heartbeat (response : Response) : M unit :=
  seq ← get_sequence_num false;
  message_type ← MSG_TYPES_at "heartbeat_request";
  let pfcp_header := PFCP.mk (Some 1) (Some 0) (Some message_type) None (Some seq) in
  let heartbeat := new_Message PFCPHeartbeatRequest in
  let heartbeat := Message_set_version 1 heartbeat in
  let heartbeat := Message_append heartbeat (new_IE IE_RecoveryTimeStamp []) in
  pkt ← make_packet pfcp_header heartbeat;
  expected ← MSG_TYPES_at "heartbeat_response";
  send_recv_pfcp pkt expected 0 response.

(** A thread is running or has finished, by returning or with the
    exception that left its function. *)
Inductive thread : Type :=
  | Running
  | Returned
  | Raised (e : exn).

(** [send_pfcp_heartbeats()], one wake-up at a time: the thread sleeps one
    second and looks at [script_terminating]; at every
    [HEARTBEAT_PERIOD]-th wake-up that finds it unset it goes on to look at
    [association_established] and, when it is set, to exchange a heartbeat.
    [polls] counts the wake-ups already made in the current period. *)
Record Heartbeat : Type := mkHeartbeat {
  hb_thread : thread;
  polls : Z;
}.

Definition send_pfcp_heartbeats_wake (response : Response) (hb : Heartbeat) (g : Globals)
  : Heartbeat * Globals :=
  match hb_thread hb with
  | Running =>
      if script_terminating g then (mkHeartbeat Returned (polls hb), g)
      else if bool_decide (polls hb + 1 < HEARTBEAT_PERIOD) then
        (mkHeartbeat Running (polls hb + 1), g)
      else if negb (association_established g) then (mkHeartbeat Running 0, g)
      else
        match send_heartbeat response g with
        | (Return _, g') => (mkHeartbeat Running 0, g')
        | (Raise e, g') => (mkHeartbeat (Raised e) 0, g')
        end
  | _ => (hb, g)
  end.

(** The dispatch table of [handle_user_input]. *)
Definition choice_desc (c : Choice) : string :=
  match c with
  | associate => "Setup PFCP Association"
  | create => "Create PFCP Session(s)"
  | modify_ => "Modify PFCP Session(s)"
  | delete_ => "Delete PFCP Session(s)"
  | disassociate => "Teardown PFCP Association"
  | interrupt => "Ungracefully teardown PFCP association"
  | stop => "Exit script"
  end.

Definition choice_func (c : Choice) (args : Namespace) (response : Response) : M unit :=
  match c with
  | associate => setup_pfcp_association args response
  | create => create_pfcp_sessions args response
  | modify_ => modify_pfcp_sessions args response
  | delete_ => delete_pfcp_sessions args response
  | disassociate => teardown_pfcp_association args response
  | interrupt => interrupt_association args
  | stop => terminate args response
  end.

(** One pass of the loop of [handle_user_input] for a command line that
    parsed into [args]: the second [try] block.  An [Exception] sets
    [script_terminating] and is raised again; both it and [SystemExit]
    end the thread. *)
Definition handle_user_input_command (args : Namespace) (response : Response)
    (t : thread) (g : Globals) : thread * Globals :=
  match t with
  | Running =>
      match (print (Print ("Selected " +:+ choice_desc (choice args)));;
             choice_func (choice args) args response) g with
      | (Return _, g') => (Running, g')
      | (Raise e, g') =>
          if is_Exception e then (Raised e, set_script_terminating true g')
          else (Raised e, g')
      end
  | _ => (t, g)
  end.

(** The process: the command thread, the heartbeat thread and the shared
    globals.  A step is a parsed command with the reply to its request, or
    a wake-up of the heartbeat thread with the reply to its probe. *)
Record Process : Type := mkProcess {
  thread1 : thread;
  thread2 : Heartbeat;
  globals : Globals;
}.

Inductive event : Type :=
  | Command (args : Namespace) (response : Response)
  | Wake (response : Response).

Definition step (e : event) (p : Process) : Process :=
  match e with
  | Command args response =>
      let '(t, g) := handle_user_input_command args response (thread1 p) (globals p) in
      mkProcess t (thread2 p) g
  | Wake response =>
      let '(hb, g) := send_pfcp_heartbeats_wake response (thread2 p) (globals p) in
      mkProcess (thread1 p) hb g
  end.

Definition run (es : list event) (p : Process) : Process :=
  foldl (λ p e, step e p) p es.

(** The process exits when both threads have finished ([thread1.join();
    thread2.join()] in [main]). *)
Definition finished (t : thread) : bool :=
  match t with Running => false | _ => true end.

Definition exited (p : Process) : bool :=
  finished (thread1 p) && finished (hb_thread (thread2 p)).

(** The globals as the module initialises them, for the addresses and the
    session identifier given. *)
Definition initial_globals (our_addr peer_addr : string) (our_seid : Z)
    (pcap_filename : option string) : Globals :=
  {| our_addr := our_addr; peer_addr := peer_addr; sequence_number := 0;
     association_established := false; script_terminating := false;
     active_sessions := ∅; pcap_filename := pcap_filename;
     our_seid := our_seid; peer_seid := None; sent_rules := no_sent_rules;
     wire := []; pcap := []; stdout := [] |}.

Definition initial_process (g : Globals) : Process :=
  mkProcess Running (mkHeartbeat Running 0) g.

(** * Definitions for the statements

    Predicates, projections and example inputs that the properties below
    are stated with. *)

Definition example_session : Session.t := Session.mk 1 None ∅ ∅ ∅ ∅.

Definition example_qer : IE :=
  craft_qer example_session 1 12345678 12345678 12345678 12345678.

Definition example_urr : IE := craft_urr example_session 1 100000 40000.

(** The globals that no exchange writes: everything but [peer_seid] and
    the three records of what went out. *)
Definition untouched (g g' : Globals) : Prop :=
  our_addr g' = our_addr g ∧ peer_addr g' = peer_addr g ∧
  sequence_number g' = sequence_number g ∧
  association_established g' = association_established g ∧
  script_terminating g' = script_terminating g ∧
  active_sessions g' = active_sessions g ∧
  pcap_filename g' = pcap_filename g ∧ our_seid g' = our_seid g ∧
  sent_rules g' = sent_rules g.

(** The session and association state of the program: the association
    flag, the termination flag, the sequence counter, the registry, the
    peer's session identifier and the rule caches. *)
Definition protocol_state (g : Globals)
  : Z * bool * bool * gmap Z Session.t * option Z * SentRules :=
  (sequence_number g, association_established g, script_terminating g,
   active_sessions g, peer_seid g, sent_rules g).

(** Calls that do not overlap hand out consecutive numbers. *)
Fixpoint sequence_nums (n : nat) (g : Globals) : list Z * Globals :=
  match n with
  | O => ([], g)
  | Datatypes.S n =>
      match get_sequence_num false g with
      | (Return x, g') => let '(xs, g'') := sequence_nums n g' in (x :: xs, g'')
      | (Raise _, g') => ([], g')
      end
  end.

(** Two threads calling [get_sequence_num] at the same time. *)
Module Interleaving.

(** A call of [get_sequence_num(reset)] in progress, at the places where
    the other thread can run: before [thread_lock.acquire()], and after
    [thread_lock.release()] with [return sequence_number] still to come.
    The lock keeps other callers out of the statements between the two,
    which are therefore one step. *)
Inductive call : Type :=
  | Calling (reset : bool)
  | Released
  | Done (returned : Z).

Definition step_call (c : call) (sequence_number : Z) : call * Z :=
  match c with
  | Calling reset =>
      let sequence_number := if reset then 0 else sequence_number in
      (Released, sequence_number + 1)
  | Released => (Done sequence_number, sequence_number)
  | Done returned => (Done returned, sequence_number)
  end.

(** The counter and the call of each thread; a schedule lists the
    threads in the order in which they take their steps. *)
Record state : Type := mk {
  sequence_number : Z;
  calls : list call;
}.

Definition step (thread : nat) (s : state) : state :=
  match calls s !! thread with
  | Some c =>
      let '(c', n) := step_call c (sequence_number s) in
      mk n (<[thread := c']> (calls s))
  | None => s
  end.

Definition run (schedule : list nat) (s : state) : state :=
  foldl (λ s thread, step thread s) s schedule.

End Interleaving.

(** The peer's session identifier after an element of a response. *)
Definition apply_fseid (peer_seid : option Z) (ie : DecodedIE.t) : option Z :=
  if bool_decide (DecodedIE.ie_type ie = 57) then Some (DecodedIE.seid ie)
  else peer_seid.

(** The globals once the request is out and the reply is in, before
    [send_recv_pfcp] looks at the kind of the reply. *)
Definition after_exchange (pkt : Packet) (verbosity : Z) (response : Response)
    (g : Globals) : Globals :=
  let g := if bool_decide (verbosity > 1)
           then set_stdout (stdout g ++ [Show_packet pkt]) g else g in
  let g := match pcap_filename g with
           | Some _ => set_pcap (pcap g ++ [Captured_packet pkt]) g
           | None => g
           end in
  let g := set_wire (wire g ++ [pkt]) g in
  let g := if bool_decide (verbosity > 0)
           then set_stdout (stdout g ++ [Received_message (data response)]) g
           else g in
  let g := match pcap_filename g with
           | Some _ => set_pcap (pcap g ++ [Captured_response response]) g
           | None => g
           end in
  let g := if bool_decide (verbosity > 1)
           then set_stdout (stdout g ++ [Show_response response]) g else g in
  g.

Definition example_globals : Globals := initial_globals "10.0.0.1" "10.0.0.2" 1 None.

Definition example_packet : Packet :=
  mkPacket "10.0.0.1" "10.0.0.2" PFCP.new (new_Message PFCPAssociationSetupRequest).




Definition example_args : Namespace :=
  {| choice := associate; buffer := false; ue_count := 1;
     ue_pool := mkIPv4Network 285212672 24;
     s1u_addr := 2348442878; enb_addr := 2348442625;
     seid_base := 1; teid_base := 255; pdr_base := 1; far_base := 1;
     urr_base := 1; qer_base := 1; pdr_precedence := 2 |}.



(** The identifier a rule carries: the [id] of the first element of its
    [IE_list]. *)
Definition rule_id (ie : IE) : option Z :=
  match ie_list ie with
  | mkIE _ [(_, VInt id)] _ :: _ => Some id
  | _ => None
  end.





Definition session_deletion_packet (session : Session.t) (peer_seid : Z)
    (g : Globals) : Packet :=
  mkPacket (our_addr g) (peer_addr g)
    (PFCP.mk (Some 1) (Some 1) (Some 54) (Some peer_seid)
       (Some (sequence_number g + 1)))
    (mkMessage PFCPSessionDeletionRequest None
       [craft_fseid (Session.our_seid session) (our_addr g)]).

Definition is_session_deletion (pkt : Packet) : Prop :=
  msg_class (pfcp_payload pkt) = PFCPSessionDeletionRequest.

Definition example_stop_args : Namespace :=
  {| choice := stop; buffer := false; ue_count := 1;
     ue_pool := mkIPv4Network 285212672 24;
     s1u_addr := 2348442878; enb_addr := 2348442625;
     seid_base := 1; teid_base := 255; pdr_base := 1; far_base := 1;
     urr_base := 1; qer_base := 1; pdr_precedence := 2 |}.


(** What an exchange appends to the capture file. *)
Definition captured_exchange (pkt : Packet) (response : Response) (g : Globals)
  : list captured :=
  match pcap_filename g with
  | Some _ => [Captured_packet pkt; Captured_response response]
  | None => []
  end.
Global Instance rule_kind_eq_dec : EqDecision rule_kind.
Proof. solve_decision. Defined.
(** [n] calls of [next] on an address generator: the addresses yielded and
    the generator afterwards. *)
Fixpoint AddrGen_take (n : nat) (gen : AddrGen) : result (list Z * AddrGen) :=
  match n with
  | O => Return ([], gen)
  | Datatypes.S n =>
      '(a, gen) ← AddrGen_next gen;
      '(l, gen) ← AddrGen_take n gen;
      Return (a :: l, gen)
  end.
(** [addr.packed]: the four bytes of an address, the most significant
    first. *)
Definition packed (addr : Z) : list Z :=
  [addr / 16777216 mod 256; addr / 65536 mod 256; addr / 256 mod 256; addr mod 256].

(** [struct.unpack("!I", b)[0]]: four bytes read as a big-endian unsigned
    integer. *)
Definition struct_unpack_I (b : list Z) : result Z :=
  match b with
  | [b0; b1; b2; b3] => Return (b0 * 16777216 + b1 * 65536 + b2 * 256 + b3)
  | _ => Raise (Exception "unpack requires a buffer of 4 bytes")
  end.

(** [ip2int(addr)] *)
Definition ip2int (addr : Z) : result Z := struct_unpack_I (packed addr).

(** [int2ip(addr)] *)
Definition int2ip (addr : Z) : result Z := IPv4Address addr.

(** The deletion request for a session, with a given sequence number. *)
Definition deletion_request (g : Globals) (session : Session.t) (peer_seid seq : Z)
  : Packet :=
  mkPacket (our_addr g) (peer_addr g)
    (PFCP.mk (Some 1) (Some 1) (Some 54) (Some peer_seid) (Some seq))
    (mkMessage PFCPSessionDeletionRequest None
       [craft_fseid (Session.our_seid session) (our_addr g)]).

(** A computation preserves an observation [f] of the globals when [f]
    reads the same after it as before, whether it returned or raised. *)
Definition preserves {A B} (f : Globals → B) (c : M A) : Prop :=
  ∀ g, f (c g).2 = f g.

(** An observation that no exchange and no request builder can change: it
    does not depend on the sequence counter, the peer's session
    identifier, the rule caches, the wire, the capture file or the
    output. *)
Definition ignores_exchange {B} (f : Globals → B) : Prop :=
  (∀ v g, f (set_sequence_number v g) = f g) ∧
  (∀ v g, f (set_peer_seid v g) = f g) ∧
  (∀ v g, f (set_sent_rules v g) = f g) ∧
  (∀ v g, f (set_wire v g) = f g) ∧
  (∀ v g, f (set_pcap v g) = f g) ∧
  (∀ v g, f (set_stdout v g) = f g).
(** A computation never exits when it does not raise [SystemExit]. *)
Definition never_exits {A} (c : M A) : Prop :=
  ∀ g, (c g).1 ≠ Raise SystemExit.
Global Instance Choice_eq_dec : EqDecision Choice.
Proof. solve_decision. Defined.

(** Whether [add_rules_to_request] was asked to add the rules of a kind. *)
Definition enabled (k : rule_kind) (add_pdrs add_fars add_urrs add_qers : bool)
  : bool :=
  match k with
  | PDR => add_pdrs
  | FAR => add_fars
  | URR => add_urrs
  | QER => add_qers
  end.

(** The heartbeat request [send_pfcp_heartbeats] builds in a state. *)
Definition heartbeat_packet (g : Globals) : Packet :=
  mkPacket (our_addr g) (peer_addr g)
    (PFCP.mk (Some 1) (Some 0) (Some 1) None (Some (sequence_number g + 1)))
    (mkMessage PFCPHeartbeatRequest (Some 1) [new_IE IE_RecoveryTimeStamp []]).


(** No identifier of [ids] has an entry in the cache of kind [k]. *)
Definition fresh (k : rule_kind) (ids : list Z) (g : Globals) : Prop :=
  ∀ id, id ∈ ids → cache_of k (sent_rules g) !! id = None.







(** A packet from [src] to [dst]. *)
Definition addressed (src dst : string) (pkt : Packet) : Prop :=
  ip_src pkt = src ∧ ip_dst pkt = dst.

(** A computation that hands nothing to the network and leaves the two
    addresses of the program. *)
Definition silent {A} (c : M A) : Prop :=
  preserves wire c ∧ preserves our_addr c ∧ preserves peer_addr c.

(** Run while the program's addresses are [src] and [dst], the computation
    hands at most one packet to the network, addressed from [src] to
    [dst], after the packets already sent, and leaves the two addresses. *)
Definition sends_at_most_one (src dst : string) {A} (c : M A) : Prop :=
  ∀ g, our_addr g = src → peer_addr g = dst →
    ∃ l, wire (c g).2 = wire g ++ l ∧ (length l ≤ 1)%nat ∧
         Forall (addressed src dst) l ∧
         our_addr (c g).2 = src ∧ peer_addr (c g).2 = dst.

(** What a computation returns when it is run while the program's
    addresses are [src] and [dst]. *)
Definition makes (src dst : string) {A} (c : M A) (Q : A → Prop) : Prop :=
  ∀ g a g', our_addr g = src → peer_addr g = dst → c g = (Return a, g') → Q a.

(** * Properties *)

(** ** The rule change cache *)

Lemma cache_of_set_cache k m s : cache_of k (set_cache k m s) = m.
Proof. by destruct k. Qed.

Lemma cache_of_set_cache_ne k k' m s :
  k ≠ k' → cache_of k' (set_cache k m s) = cache_of k' s.
Proof. by destruct k, k'. Qed.

(** [already_sent] computes the specification's classification: it answers
    [True] exactly for [Unchanged], and stores the candidate likewise. *)
Lemma already_sent_classify i r m :
  already_sent i r m = (suppressed (classify i r m).1, (classify i r m).2).
Proof.
  unfold already_sent, classify; simpl.
  destruct (m !! i) as [p|]; [|done].
  rewrite bool_decide_decide. by destruct (decide (p = r)).
Qed.

Lemma already_sent_kind_classify k i r s :
  already_sent_kind k i r s
  = (suppressed (classify_kind k i r s).1, (classify_kind k i r s).2).
Proof.
  unfold already_sent_kind, classify_kind. rewrite already_sent_classify.
  by destruct (classify i r (cache_of k s)).
Qed.

Lemma already_sent_kind_fresh k i r s :
  cache_of k s !! i = None →
  already_sent_kind k i r s = (false, set_cache k (<[i := r]> (cache_of k s)) s).
Proof. intros H. unfold already_sent_kind, already_sent. by rewrite H. Qed.

Lemma already_sent_kind_known k i r p s :
  cache_of k s !! i = Some p →
  already_sent_kind k i r s
  = (bool_decide (p = r), set_cache k (<[i := r]> (cache_of k s)) s).
Proof. intros H. unfold already_sent_kind, already_sent. by rewrite H. Qed.

Lemma classify_kind_fst k i r s :
  (classify_kind k i r s).1
  = match cache_of k s !! i with
    | None => New
    | Some p => if decide (p = r) then Unchanged else Changed
    end.
Proof. done. Qed.

(** C1. For every rule kind and identifier, from empty caches: the first
    call of [already_sent] answers [False] (the candidate is [New]); a
    second call with the same candidate answers [True] ([Unchanged]); a
    second call with a different candidate answers [False] ([Changed]);
    and a third call repeating that second candidate answers [True]
    ([Unchanged]). *)
Theorem classification_sequence (k : rule_kind) (i : Z) (r r' : IE) :
  r ≠ r' →
  let first := already_sent_kind k i r no_sent_rules in
  let second_same := already_sent_kind k i r first.2 in
  let second_other := already_sent_kind k i r' first.2 in
  let third := already_sent_kind k i r' second_other.2 in
  (first.1 = false ∧ (classify_kind k i r no_sent_rules).1 = New) ∧
  (second_same.1 = true ∧ (classify_kind k i r first.2).1 = Unchanged) ∧
  (second_other.1 = false ∧ (classify_kind k i r' first.2).1 = Changed) ∧
  (third.1 = true ∧ (classify_kind k i r' second_other.2).1 = Unchanged).
Proof.
  intros Hne. cbv zeta.
  assert (H0 : cache_of k no_sent_rules !! i = None) by by destruct k.
  rewrite (already_sent_kind_fresh _ _ _ _ H0). cbn [fst snd].
  set (s1 := set_cache k _ no_sent_rules).
  assert (H1 : cache_of k s1 !! i = Some r).
  { unfold s1. by rewrite cache_of_set_cache, lookup_insert_eq. }
  rewrite !(already_sent_kind_known _ _ _ _ _ H1). cbn [fst snd].
  set (s2 := set_cache k _ s1).
  assert (H2 : cache_of k s2 !! i = Some r').
  { unfold s2. by rewrite cache_of_set_cache, lookup_insert_eq. }
  rewrite (already_sent_kind_known _ _ _ _ _ H2). cbn [fst snd].
  rewrite !classify_kind_fst, H0, H1, H2.
  rewrite !bool_decide_decide.
  repeat case_decide; done.
Qed.

Lemma classification_sequence_witness :
  let r := example_qer in
  let r' := example_urr in
  r ≠ r' ∧
  let first := already_sent_kind QER 1 r no_sent_rules in
  let second_same := already_sent_kind QER 1 r first.2 in
  let second_other := already_sent_kind QER 1 r' first.2 in
  let third := already_sent_kind QER 1 r' second_other.2 in
  (first.1 = false ∧ (classify_kind QER 1 r no_sent_rules).1 = New) ∧
  (second_same.1 = true ∧ (classify_kind QER 1 r first.2).1 = Unchanged) ∧
  (second_other.1 = false ∧ (classify_kind QER 1 r' first.2).1 = Changed) ∧
  (third.1 = true ∧ (classify_kind QER 1 r' second_other.2).1 = Unchanged).
Proof.
  assert (H : example_qer ≠ example_urr) by (vm_compute; discriminate).
  split; [exact H|].
  exact (classification_sequence QER 1 example_qer example_urr H).
Defined.

(** The caches of the other kinds are not touched. *)
Lemma already_sent_kind_other k k' i r s :
  k ≠ k' → cache_of k' (already_sent_kind k i r s).2 = cache_of k' s.
Proof.
  intros. unfold already_sent_kind.
  destruct (already_sent i r (cache_of k s)); simpl.
  by apply cache_of_set_cache_ne.
Qed.

(** C2. Every call of [already_sent] stores the candidate under its
    identifier, whatever the answer, and the answer depends only on the
    entry the dictionary had before: none gives [False] ([New]), an equal
    one [True] ([Unchanged]), a different one [False] ([Changed]).  In
    [add_rules_to_request] the candidate is in the cache after the test
    whether or not it went into the request. *)
Theorem store_then_compare (i : Z) (r : IE) (m : gmap Z IE) :
  let previous := m !! i in
  let call := already_sent i r m in
  call.2 = <[i := r]> m ∧
  call.2 !! i = Some r ∧
  call.1 = match previous with
           | None => false
           | Some p => bool_decide (p = r)
           end ∧
  (classify i r m).1 = match previous with
                       | None => New
                       | Some p => if decide (p = r) then Unchanged else Changed
                       end ∧
  call = (suppressed (classify i r m).1, (classify i r m).2) ∧
  (∀ (k : rule_kind) (request : Message) (g : Globals),
     let sent := (already_sent_kind k i r (sent_rules g)).1 in
     let after := append_unless_sent false k i r request g in
     after.1 = Return (if sent then request else Message_append request r) ∧
     cache_of k (sent_rules after.2) !! i = Some r).
Proof.
  simpl. split_and!.
  - unfold already_sent. by destruct (m !! i).
  - unfold already_sent. destruct (m !! i); simpl; by rewrite lookup_insert_eq.
  - unfold already_sent. by destruct (m !! i).
  - done.
  - apply already_sent_classify.
  - intros k request g. unfold append_unless_sent, already_sent_kind.
    destruct (already_sent i r (cache_of k (sent_rules g))) as [b m'] eqn:E.
    simpl. split; [by destruct b|].
    rewrite cache_of_set_cache.
    unfold already_sent in E.
    destruct (cache_of k (sent_rules g) !! i); simplify_eq;
      by rewrite lookup_insert_eq.
Qed.

(** ** Running the monad *)

Lemma bind_Return {A B} (c : M A) (k : A → M B) g a g' :
  c g = (Return a, g') → (c ≫= k) g = k a g'.
Proof. intros H. unfold mbind, M_bind. by rewrite H. Qed.


Lemma bind_run {A B} (c : M A) (k : A → M B) g :
  (c ≫= k) g
  = match (c g).1 with
    | Return a => k a (c g).2
    | Raise e => (Raise e, (c g).2)
    end.
Proof. unfold mbind, M_bind. by destruct (c g) as [[a|e] g']. Qed.





Lemma MSG_TYPES_session_deletion_request :
  MSG_TYPES !! "session_deletion_request" = Some 54.
Proof. vm_compute. reflexivity. Qed.

Lemma MSG_TYPES_session_deletion_response :
  MSG_TYPES !! "session_deletion_response" = Some 55.
Proof. vm_compute. reflexivity. Qed.

Lemma MSG_TYPES_heartbeat_request : MSG_TYPES !! "heartbeat_request" = Some 1.
Proof. vm_compute. reflexivity. Qed.

Lemma MSG_TYPES_heartbeat_response : MSG_TYPES !! "heartbeat_response" = Some 2.
Proof. vm_compute. reflexivity. Qed.

Lemma untouched_protocol_state g g' :
  untouched g g' → peer_seid g' = peer_seid g →
  protocol_state g' = protocol_state g.
Proof.
  intros (_ & _ & H1 & H2 & H3 & H4 & _ & _ & H5) H6. unfold protocol_state.
  by rewrite H1, H2, H3, H4, H5, H6.
Qed.

(** ** The sequence allocator *)

Lemma get_sequence_num_next g :
  get_sequence_num false g
  = (Return (sequence_number g + 1), set_sequence_number (sequence_number g + 1) g).
Proof. by destruct g. Qed.

Lemma get_sequence_num_reset g :
  get_sequence_num true g = (Return 1, set_sequence_number 1 g).
Proof. by destruct g. Qed.

Lemma sequence_nums_consecutive n g :
  (sequence_nums n g).1 = seqZ (sequence_number g + 1) (Z.of_nat n).
Proof.
  revert g. induction n as [|n IH]; intros g; [done|].
  cbn [sequence_nums]. rewrite get_sequence_num_next.
  specialize (IH (set_sequence_number (sequence_number g + 1) g)).
  destruct (sequence_nums n _) as [xs g'']. cbn [fst] in *. rewrite IH.
  replace (Z.of_nat (Datatypes.S n)) with (Z.succ (Z.of_nat n)) by lia.
  rewrite (seqZ_cons (sequence_number g + 1) (Z.succ (Z.of_nat n))) by lia.
  f_equal.
  f_equal; first [lia | destruct g; cbn [sequence_number set_sequence_number]; lia].
Qed.

Lemma sequence_nums_NoDup n g : NoDup (sequence_nums n g).1.
Proof. rewrite sequence_nums_consecutive. apply NoDup_seqZ. Qed.

(** C6. After a reset the next number obtained should be 1.  The reset of
    the program is the call [get_sequence_num(reset=True)] of
    [setup_pfcp_association], commented "zero out the sequence number": it
    returns 1 itself and leaves the counter at 1, not 0, so the next call
    returns 2. *)
Theorem reset_then_next (g : Globals) :
  let reset := get_sequence_num true g in
  let next := get_sequence_num false reset.2 in
  reset.1 = Return 1 ∧ sequence_number reset.2 = 1 ∧ next.1 = Return 2.
Proof.
  cbv zeta. rewrite get_sequence_num_reset. cbn [fst snd].
  rewrite get_sequence_num_next. by destruct g.
Qed.

(** ** Two threads in the sequence allocator *)

(** A call whose two steps are not separated by another thread is
    [get_sequence_num]. *)
Lemma step_call_uninterrupted reset g :
  let '(c1, n1) := Interleaving.step_call (Interleaving.Calling reset) (sequence_number g) in
  let '(c2, n2) := Interleaving.step_call c1 n1 in
  ∃ x, c2 = Interleaving.Done x ∧
       (get_sequence_num reset g).1 = Return x ∧
       sequence_number (get_sequence_num reset g).2 = n2.
Proof.
  destruct reset; cbn [Interleaving.step_call].
  - exists 1. rewrite get_sequence_num_reset. by destruct g.
  - exists (sequence_number g + 1). rewrite get_sequence_num_next. by destruct g.
Qed.

(** C5. Sequence numbers handed out to the two threads should be pairwise
    distinct.  When the heartbeat thread (1) takes the lock between the
    command thread (0) releasing it and reading [sequence_number] for its
    [return], both calls return the same number. *)
Theorem overlapping_calls_same_number (n : Z) :
  let start :=
    Interleaving.mk n [Interleaving.Calling false; Interleaving.Calling false] in
  Interleaving.calls (Interleaving.run [0; 1; 0; 1]%nat start)
  = [Interleaving.Done (n + 2); Interleaving.Done (n + 2)].
Proof.
  cbn. by replace (n + 1 + 1) with (n + 2) by lia.
Qed.

(** In the other order of the same four steps the numbers differ. *)
Lemma consecutive_calls_distinct_numbers (n : Z) :
  let start :=
    Interleaving.mk n [Interleaving.Calling false; Interleaving.Calling false] in
  Interleaving.calls (Interleaving.run [0; 0; 1; 1]%nat start)
  = [Interleaving.Done (n + 1); Interleaving.Done (n + 2)].
Proof.
  cbn. by replace (n + 1 + 1) with (n + 2) by lia.
Qed.

(** ** The correlator *)

Lemma handle_ie_spec verbosity ie g :
  let r := handle_ie verbosity ie g in
  r.1 = Return tt ∧ untouched g r.2 ∧ wire r.2 = wire g ∧ pcap r.2 = pcap g ∧
  peer_seid r.2 = apply_fseid (peer_seid g) ie.
Proof.
  unfold handle_ie, apply_fseid. destruct g.
  destruct (bool_decide (verbosity > 0)),
    (bool_decide (DecodedIE.ie_type ie = 60)),
    (bool_decide (DecodedIE.ie_type ie = 19)),
    (bool_decide (DecodedIE.ie_type ie = 57)),
    (bool_decide (DecodedIE.ie_type ie = 96)),
    (bool_decide (DecodedIE.ie_type ie = 116));
    repeat split; reflexivity.
Qed.

Lemma untouched_refl g : untouched g g.
Proof. by repeat split. Qed.

Lemma untouched_trans g1 g2 g3 : untouched g1 g2 → untouched g2 g3 → untouched g1 g3.
Proof. unfold untouched. intros ? ?. destruct_and!. split_and!; congruence. Qed.

Lemma for_each_handle_ie verbosity l g :
  let r := for_each l (handle_ie verbosity) g in
  r.1 = Return tt ∧ untouched g r.2 ∧ wire r.2 = wire g ∧ pcap r.2 = pcap g ∧
  peer_seid r.2 = foldl apply_fseid (peer_seid g) l.
Proof.
  revert g. induction l as [|ie l IH]; intros g; cbn [for_each foldl].
  { split_and!; first [done | apply untouched_refl]. }
  destruct (handle_ie_spec verbosity ie g) as (H1 & H2 & H3 & H4 & H5).
  cbv zeta. rewrite bind_run, H1.
  destruct (IH (handle_ie verbosity ie g).2) as (I1 & I2 & I3 & I4 & I5).
  split_and!; [done|by eapply untouched_trans|congruence|congruence|].
  by rewrite I5, H5.
Qed.

Lemma send_recv_pfcp_run pkt expected verbosity response g :
  send_recv_pfcp pkt expected verbosity response g
  = (if bool_decide (message_type response = expected) then
       for_each (IE_list response) (handle_ie verbosity)
     else
       expected ← PFCPmessageType_at expected;
       received ← PFCPmessageType_at (message_type response);
       print (Error_expected_but_received expected received))
      (after_exchange pkt verbosity response g).
Proof.
  unfold send_recv_pfcp, after_exchange.
  generalize (bool_decide (message_type response = expected)). intros b.
  destruct g as [? ? ? ? ? ? pf ? ? ? ? ? ?].
  destruct pf, (bool_decide (verbosity > 1)), (bool_decide (verbosity > 0));
    reflexivity.
Qed.

Lemma after_exchange_spec pkt verbosity response g :
  let g' := after_exchange pkt verbosity response g in
  untouched g g' ∧ peer_seid g' = peer_seid g ∧ wire g' = wire g ++ [pkt].
Proof.
  unfold after_exchange.
  destruct g as [? ? ? ? ? ? pf ? ? ? ? ? ?].
  destruct pf, (bool_decide (verbosity > 1)), (bool_decide (verbosity > 0));
    repeat split; reflexivity.
Qed.

(** What every exchange does, whatever the reply. *)
Lemma send_recv_pfcp_frame pkt expected verbosity response g :
  let r := send_recv_pfcp pkt expected verbosity response g in
  untouched g r.2 ∧ wire r.2 = wire g ++ [pkt].
Proof.
  cbv zeta. rewrite send_recv_pfcp_run.
  destruct (after_exchange_spec pkt verbosity response g) as (H1 & H2 & H3).
  set (g1 := after_exchange pkt verbosity response g) in *.
  case_bool_decide.
  - destruct (for_each_handle_ie verbosity (IE_list response) g1)
      as (_ & I2 & I3 & _).
    split; [by eapply untouched_trans|congruence].
  - unfold PFCPmessageType_at.
    destruct g1, (PFCPmessageType !! expected),
      (PFCPmessageType !! message_type response); by split.
Qed.

(** A reply of the expected kind: its F-SEID elements are applied. *)
Lemma send_recv_pfcp_match pkt expected verbosity response g :
  message_type response = expected →
  let r := send_recv_pfcp pkt expected verbosity response g in
  r.1 = Return tt ∧
  peer_seid r.2 = foldl apply_fseid (peer_seid g) (IE_list response).
Proof.
  intros Hm. cbv zeta. rewrite send_recv_pfcp_run.
  rewrite bool_decide_eq_true_2 by done.
  destruct (after_exchange_spec pkt verbosity response g) as (H1 & H2 & H3).
  destruct (for_each_handle_ie verbosity (IE_list response)
              (after_exchange pkt verbosity response g)) as (I1 & _ & _ & _ & I5).
  split; [done|]. by rewrite I5, H2.
Qed.

(** A reply of another kind: the outcome for each case of the two look-ups
    in [pfcp.PFCPmessageType]. *)
Lemma send_recv_pfcp_mismatch pkt expected verbosity response g :
  message_type response ≠ expected →
  let r := send_recv_pfcp pkt expected verbosity response g in
  peer_seid r.2 = peer_seid g ∧
  match PFCPmessageType !! expected, PFCPmessageType !! message_type response with
  | Some e, Some n =>
      r.1 = Return tt ∧ last (stdout r.2) = Some (Error_expected_but_received e n)
  | None, _ => r.1 = Raise (KeyError expected)
  | Some _, None => r.1 = Raise (KeyError (message_type response))
  end.
Proof.
  intros Hm. cbv zeta. rewrite send_recv_pfcp_run.
  rewrite bool_decide_eq_false_2 by done.
  destruct (after_exchange_spec pkt verbosity response g) as (H1 & H2 & H3).
  set (g1 := after_exchange pkt verbosity response g) in *.
  unfold PFCPmessageType_at.
  destruct g1, (PFCPmessageType !! expected),
    (PFCPmessageType !! message_type response); split; try done.
  split; [done|]. cbn [snd stdout set_stdout]. apply last_snoc.
Qed.



(** ** The association *)












(** ** The heartbeat thread *)



Lemma wake_terminating response hb g :
  script_terminating g = true → hb_thread hb = Running →
  send_pfcp_heartbeats_wake response hb g = (mkHeartbeat Returned (polls hb), g).
Proof.
  intros H1 H2. unfold send_pfcp_heartbeats_wake. by rewrite H2, H1.
Qed.

Lemma wake_finished response hb g :
  hb_thread hb ≠ Running → send_pfcp_heartbeats_wake response hb g = (hb, g).
Proof.
  intros H. unfold send_pfcp_heartbeats_wake. by destruct (hb_thread hb).
Qed.




(** With the association established the fifth wake-up of a period does
    send a heartbeat request. *)
Example heartbeat_when_established :
  let g := set_association_established true example_globals in
  let after := send_pfcp_heartbeats_wake (mkResponse "" 2 []) (mkHeartbeat Running 4) g in
  (msg_class ∘ pfcp_payload) <$> wire after.2 = [PFCPHeartbeatRequest] ∧
  after.1 = mkHeartbeat Running 0.
Proof. vm_compute. done. Qed.

(** ** Postconditions on returned values *)





(** ** The identifiers of the QER rules *)

Lemma ie_cls_append ie x : ie_cls (IE_list_append ie x) = ie_cls ie.
Proof. by destruct ie. Qed.


















(** ** The session registry *)





























(** ** Termination *)

Lemma craft_pfcp_session_delete_packet_run session g :
  craft_pfcp_session_delete_packet session g
  = match Session.peer_seid session with
    | None => (Raise (Exception "Peer SEID has not yet been received."), g)
    | Some peer_seid =>
        (Return (session_deletion_packet session peer_seid g),
         set_sequence_number (sequence_number g + 1) g)
    end.
Proof.
  unfold craft_pfcp_session_delete_packet, MSG_TYPES_at.
  rewrite MSG_TYPES_session_deletion_request.
  erewrite bind_Return by reflexivity.
  destruct (Session.peer_seid session); [|reflexivity].
  erewrite bind_Return by apply get_sequence_num_next.
  by destruct g.
Qed.

Lemma send_recv_pfcp_raises pkt expected verbosity response g e :
  (send_recv_pfcp pkt expected verbosity response g).1 = Raise e →
  is_Exception e = true.
Proof.
  destruct (decide (message_type response = expected)) as [Hm|Hm].
  - destruct (send_recv_pfcp_match pkt expected verbosity response g Hm) as (-> & _).
    done.
  - destruct (send_recv_pfcp_mismatch pkt expected verbosity response g Hm)
      as (_ & H).
    destruct (PFCPmessageType !! expected),
      (PFCPmessageType !! message_type response);
      first [destruct H as (-> & _)|rewrite H]; by intros [= <-].
Qed.

Lemma delete_loop_spec seids pkt0 g :
  let r := delete_loop seids pkt0 g in
  association_established r.2 = association_established g ∧
  script_terminating r.2 = script_terminating g ∧
  wire r.2 = wire g ∧
  (∀ pkt, r.1 = Return (Some pkt) → pkt0 = Some pkt ∨ is_session_deletion pkt) ∧
  (∀ e, r.1 = Raise e → is_Exception e = true).
Proof.
  revert pkt0 g. induction seids as [|seid seids IH]; intros pkt0 g; cbn [delete_loop].
  { split_and!; try done. intros pkt [= ->]. by left. }
  cbv zeta. erewrite bind_Return by reflexivity.
  destruct (active_sessions g !! seid) as [session|];
    [|split_and!; try done; by intros e [= <-]].
  rewrite bind_run, craft_pfcp_session_delete_packet_run.
  destruct (Session.peer_seid session) as [p|]; cbn [fst snd];
    [|split_and!; try done; by intros e [= <-]].
  destruct (IH (Some (session_deletion_packet session p g))
              (set_sequence_number (sequence_number g + 1) g))
    as (H1 & H2 & H3 & H4 & H5).
  split_and!; [rewrite H1; by destruct g|rewrite H2; by destruct g
              |rewrite H3; by destruct g| |done].
  intros pkt Hp. right. destruct (H4 pkt Hp) as [[= <-]|]; done.
Qed.

Lemma delete_pfcp_sessions_spec args response g :
  let r := delete_pfcp_sessions args response g in
  association_established r.2 = association_established g ∧
  script_terminating r.2 = script_terminating g ∧
  (∃ l, wire r.2 = wire g ++ l ∧ Forall is_session_deletion l) ∧
  (∀ e, r.1 = Raise e → is_Exception e = true).
Proof.
  cbv zeta. unfold delete_pfcp_sessions. rewrite bind_run.
  destruct (delete_loop_spec
              (range (seid_base args) (seid_base args + ue_count args)) None g)
    as (H1 & H2 & H3 & H4 & H5).
  destruct (delete_loop _ None g) as [[[pkt|]|e] g1]; cbn [fst snd] in *.
  - destruct (H4 pkt eq_refl) as [|Hd]; [done|].
    unfold MSG_TYPES_at. rewrite MSG_TYPES_session_deletion_response.
    erewrite bind_Return by reflexivity. rewrite bind_run.
    destruct (send_recv_pfcp_frame pkt 55 0 response g1)
      as ((_ & _ & _ & F1 & F2 & _) & F3).
    pose proof (send_recv_pfcp_raises pkt 55 0 response g1) as F4.
    destruct (send_recv_pfcp pkt 55 0 response g1) as [[[]|e] g2];
      cbn [fst snd] in *.
    + split_and!; [destruct g2; cbn in *; congruence..| |done].
      exists [pkt]. split; [destruct g2; cbn in *; congruence|by constructor].
    + split_and!; [congruence..| |exact F4].
      exists [pkt]. split; [congruence|by constructor].
  - split_and!; try done; [|by intros e [= <-]]. exists []. by rewrite app_nil_r.
  - split_and!; try done; [|intros e' [= <-]; by apply H5].
    exists []. by rewrite app_nil_r.
Qed.

Lemma terminate_end g :
  (modify (set_script_terminating true);; raise SystemExit : M unit) g
  = (Raise SystemExit, set_script_terminating true g).
Proof. reflexivity. Qed.

Lemma terminate_spec args response g :
  let r := terminate args response g in
  association_established r.2 = association_established g ∧
  (∃ l, wire r.2 = wire g ++ l ∧ Forall is_session_deletion l) ∧
  (r.1 = Raise SystemExit ∧ script_terminating r.2 = true ∨
   ∃ e, r.1 = Raise e ∧ is_Exception e = true).
Proof.
  cbv zeta. unfold terminate. erewrite bind_Return by reflexivity.
  rewrite bind_run. destruct (association_established g) eqn:Ha; cbn [when].
  - rewrite bind_run. cbn [print modify fst snd].
    destruct (delete_pfcp_sessions_spec args response
                (set_stdout (stdout g ++
                   [Print "Exiting before association deleted. Deleting.."]) g))
      as (H1 & H2 & (l & H3 & H4) & H5).
    destruct (delete_pfcp_sessions args response _) as [[[]|e] g1];
      cbn [fst snd] in *.
    + rewrite terminate_end. cbn [fst snd]. split_and!.
      * destruct g1, g; cbn in *; congruence.
      * exists l. split; [|done]. destruct g1, g; cbn in *; congruence.
      * left. by destruct g1.
    + split_and!.
      * destruct g; cbn in *; congruence.
      * exists l. split; [|done]. destruct g; cbn in *; congruence.
      * right. exists e. split; [done|]. by apply H5.
  - cbn [fst snd mret M_ret]. rewrite terminate_end. cbn [fst snd]. split_and!.
    + by destruct g.
    + exists []. rewrite app_nil_r. by destruct g.
    + left. by destruct g.
Qed.

(** C8. A [stop] command given while the association is established ends
    the command thread with [script_terminating] set, and the heartbeat
    thread returns at its next wake-up, so the process exits whether the
    deletion exchange succeeded or raised.  But every request the command
    sends is a session deletion request: no association release request
    goes out, and the association is still marked established. *)
Theorem stop_while_established (args : Namespace) (response : Response)
    (g : Globals) :
  choice args = stop →
  association_established g = true →
  let after := handle_user_input_command args response Running g in
  finished after.1 = true ∧
  script_terminating after.2 = true ∧
  (∀ wake hb, hb_thread hb = Running →
     exited (step (Wake wake) (mkProcess after.1 hb after.2)) = true) ∧
  association_established after.2 = true ∧
  ∃ l, wire after.2 = wire g ++ l ∧
       Forall is_session_deletion l ∧
       Forall (λ pkt, msg_class (pfcp_payload pkt) ≠ PFCPAssociationReleaseRequest) l.
Proof.
  intros Hc Ha. cbv zeta.
  assert (H : let after := handle_user_input_command args response Running g in
              finished after.1 = true ∧ script_terminating after.2 = true ∧
              association_established after.2 = true ∧
              ∃ l, wire after.2 = wire g ++ l ∧ Forall is_session_deletion l).
  { cbv zeta. unfold handle_user_input_command. rewrite Hc. cbn [choice_func].
    rewrite bind_run. cbn [print modify fst snd].
    destruct (terminate_spec args response
                (set_stdout (stdout g ++
                   [Print ("Selected " +:+ choice_desc stop)]) g))
      as (H1 & (l & H2 & H3) & H4).
    destruct (terminate args response _) as [r g1]; cbn [fst snd] in *.
    destruct H4 as [(-> & H4)|(e & -> & H4)].
    - cbn [is_Exception fst snd finished].
      split_and!; try done; try (exists l; split; [|done]);
        destruct g; cbn in *; congruence.
    - rewrite H4. cbn [fst snd finished].
      split_and!; try done; try (exists l; split; [|done]);
        destruct g1, g; cbn in *; congruence. }
  cbv zeta in H. destruct H as (H1 & H2 & H3 & l & H4 & H5).
  split_and!; try done.
  - intros wake hb Hhb. unfold exited. cbn [step thread1 thread2 globals].
    rewrite wake_terminating by done. cbn [thread1 thread2 hb_thread finished].
    by rewrite H1.
  - exists l. split_and!; try done.
    eapply Forall_impl; [exact H5|]. intros pkt Hp. unfold is_session_deletion in Hp.
    by rewrite Hp.
Qed.

Lemma stop_while_established_witness :
  let g := (setup_pfcp_association example_args (mkResponse "" 6 [])
              example_globals).2 in
  let response := mkResponse "" 55 [] in
  (choice example_stop_args = stop ∧ association_established g = true) ∧
  let after := handle_user_input_command example_stop_args response Running g in
  finished after.1 = true ∧
  script_terminating after.2 = true ∧
  (∀ wake hb, hb_thread hb = Running →
     exited (step (Wake wake) (mkProcess after.1 hb after.2)) = true) ∧
  association_established after.2 = true ∧
  ∃ l, wire after.2 = wire g ++ l ∧
       Forall is_session_deletion l ∧
       Forall (λ pkt, msg_class (pfcp_payload pkt) ≠ PFCPAssociationReleaseRequest) l.
Proof.
  cbv zeta.
  assert (H1 : choice example_stop_args = stop) by reflexivity.
  assert (H2 : association_established
                 (setup_pfcp_association example_args (mkResponse "" 6 [])
                    example_globals).2 = true) by (vm_compute; reflexivity).
  split; [by split|].
  exact (stop_while_established example_stop_args (mkResponse "" 55 []) _ H1 H2).
Defined.

(** The program from its start: [associate], answered by the peer, then
    [stop].  The only request on the wire is the association set-up
    request; the deletion fails at the registry look-up, nothing is
    released, and the process exits at the next wake-up of the heartbeat
    thread. *)
Example associate_then_stop :
  let events :=
    [Command example_args (mkResponse "" 6 []);
     Command example_stop_args (mkResponse "" 55 []);
     Wake (mkResponse "" 2 [])] in
  let p := run events (initial_process example_globals) in
  thread1 p = Raised (KeyError 1) ∧
  hb_thread (thread2 p) = Returned ∧
  exited p = true ∧
  (msg_class ∘ pfcp_payload) <$> wire (globals p) = [PFCPAssociationSetupRequest] ∧
  association_established (globals p) = true ∧
  script_terminating (globals p) = true.
Proof. cbv zeta. split_and!; vm_compute; reflexivity. Qed.

(** After [associate] the first request that takes a sequence number, here
    the heartbeat of the fifth wake-up, carries the number 2. *)
Example first_sequence_number_after_associate :
  let events :=
    Command example_args (mkResponse "" 6 [])
    :: replicate 5 (Wake (mkResponse "" 2 [])) in
  let p := run events (initial_process example_globals) in
  (PFCP.seq ∘ pfcp_header) <$> wire (globals p) = [None; Some 2].
Proof. vm_compute. reflexivity. Qed.

(** ** More on the rule change cache *)

Lemma set_cache_set_cache_ne k k' m m' s :
  k ≠ k' → set_cache k m (set_cache k' m' s) = set_cache k' m' (set_cache k m s).
Proof. by destruct k, k'. Qed.

Lemma set_cache_set_cache k m m' s :
  set_cache k m (set_cache k m' s) = set_cache k m s.
Proof. by destruct k. Qed.

(** X1. Calls of [already_sent] for different identifiers, or for
    different rule kinds, do not interfere: each gets the answer it would
    get without the other, and the caches end up the same in either
    order. *)
Theorem already_sent_commute (k k' : rule_kind) (i j : Z) (r r' : IE)
    (s : SentRules) :
  k ≠ k' ∨ i ≠ j →
  let a := already_sent_kind k i r s in
  let b := already_sent_kind k' j r' s in
  (already_sent_kind k' j r' a.2).1 = b.1 ∧
  (already_sent_kind k i r b.2).1 = a.1 ∧
  (already_sent_kind k' j r' a.2).2 = (already_sent_kind k i r b.2).2.
Proof.
  intros Hne. cbv zeta. unfold already_sent_kind, already_sent.
  destruct (decide (k = k')) as [<-|Hk].
  - destruct Hne as [|Hij]; [done|].
    destruct (cache_of k s !! i) as [p|] eqn:Ei, (cache_of k s !! j) as [q|] eqn:Ej;
      cbn [fst snd]; rewrite !cache_of_set_cache;
      rewrite ?lookup_insert_ne by done; rewrite ?Ei, ?Ej; cbn [fst snd];
      rewrite !set_cache_set_cache;
      (split_and!; [done..|]); f_equal; by apply insert_insert_ne.
  - destruct (cache_of k s !! i) as [p|] eqn:Ei, (cache_of k' s !! j) as [q|] eqn:Ej;
      cbn [fst snd];
      rewrite !cache_of_set_cache_ne by done; rewrite ?Ei, ?Ej; cbn [fst snd];
      (split_and!; [done..|]); by apply set_cache_set_cache_ne.
Qed.

Lemma already_sent_commute_witness :
  (PDR ≠ FAR ∨ (1:Z) ≠ 1) ∧
  let a := already_sent_kind PDR 1 example_qer no_sent_rules in
  let b := already_sent_kind FAR 1 example_urr no_sent_rules in
  (already_sent_kind FAR 1 example_urr a.2).1 = b.1 ∧
  (already_sent_kind PDR 1 example_qer b.2).1 = a.1 ∧
  (already_sent_kind FAR 1 example_urr a.2).2
  = (already_sent_kind PDR 1 example_qer b.2).2.
Proof.
  assert (H : PDR ≠ FAR ∨ (1:Z) ≠ 1) by (left; discriminate).
  split; [exact H|].
  exact (already_sent_commute PDR FAR 1 1 example_qer example_urr no_sent_rules H).
Defined.

(** ** More on the sequence allocator *)

(** X2. Calls of [get_sequence_num()] that do not overlap hand out
    consecutive numbers, starting after the current value of the counter:
    they are pairwise distinct and increasing, and the counter ends at the
    last one. *)
Theorem sequence_numbers_consecutive (n : nat) (g : Globals) :
  let r := sequence_nums n g in
  r.1 = seqZ (sequence_number g + 1) (Z.of_nat n) ∧
  NoDup r.1 ∧
  sequence_number r.2 = sequence_number g + Z.of_nat n.
Proof.
  cbv zeta. split_and!; [apply sequence_nums_consecutive|apply sequence_nums_NoDup|].
  revert g. induction n as [|n IH]; intros g; cbn [sequence_nums snd].
  - lia.
  - rewrite get_sequence_num_next.
    specialize (IH (set_sequence_number (sequence_number g + 1) g)).
    destruct (sequence_nums n _) as [xs g'']. cbn [snd] in *. rewrite IH.
    destruct g; cbn. lia.
Qed.

(** ** More on the correlator *)


Lemma after_exchange_pcap pkt verbosity response g :
  pcap (after_exchange pkt verbosity response g)
  = pcap g ++ captured_exchange pkt response g.
Proof.
  unfold after_exchange, captured_exchange.
  destruct g as [? ? ? ? ? ? pf ? ? ? ? ? ?].
  destruct pf, (bool_decide (verbosity > 1)), (bool_decide (verbosity > 0));
    cbn; by rewrite <-?app_assoc, ?app_nil_r.
Qed.

Lemma send_recv_pfcp_pcap pkt expected verbosity response g :
  pcap (send_recv_pfcp pkt expected verbosity response g).2
  = pcap g ++ captured_exchange pkt response g.
Proof.
  rewrite send_recv_pfcp_run, <-(after_exchange_pcap pkt verbosity response g).
  set (g1 := after_exchange pkt verbosity response g).
  case_bool_decide.
  - by destruct (for_each_handle_ie verbosity (IE_list response) g1)
      as (_ & _ & _ & ? & _).
  - unfold PFCPmessageType_at.
    by destruct g1, (PFCPmessageType !! expected),
      (PFCPmessageType !! message_type response).
Qed.

(** X3. Whatever the peer replies, an exchange hands exactly its request to
    the transport, appends the request and then the reply to the capture
    file when one is configured (and nothing otherwise), and leaves the
    sequence counter, the two flags, the registry and the rule caches as
    they were. *)
Theorem exchange_effects (pkt : Packet) (expected verbosity : Z)
    (response : Response) (g : Globals) :
  let r := send_recv_pfcp pkt expected verbosity response g in
  wire r.2 = wire g ++ [pkt] ∧
  pcap r.2 = pcap g ++ captured_exchange pkt response g ∧
  sequence_number r.2 = sequence_number g ∧
  association_established r.2 = association_established g ∧
  script_terminating r.2 = script_terminating g ∧
  active_sessions r.2 = active_sessions g ∧
  sent_rules r.2 = sent_rules g.
Proof.
  cbv zeta.
  destruct (send_recv_pfcp_frame pkt expected verbosity response g)
    as ((_ & _ & H1 & H2 & H3 & H4 & _ & _ & H5) & H6).
  split_and!; try done. apply send_recv_pfcp_pcap.
Qed.



(** X5. A reply whose message type is not in [pfcp.PFCPmessageType], where
    another kind was expected, makes [send_recv_pfcp] raise the [KeyError]
    of the look-up made for the error message: no error line is printed,
    though the request is on the wire; the session and association state
    is unchanged. *)
Theorem unnamed_reply_kind_raises (pkt : Packet) (expected : Z)
    (response : Response) (g : Globals) (expected_name : string) :
  message_type response ≠ expected →
  PFCPmessageType !! expected = Some expected_name →
  PFCPmessageType !! message_type response = None →
  let r := send_recv_pfcp pkt expected 0 response g in
  r.1 = Raise (KeyError (message_type response)) ∧
  stdout r.2 = stdout g ∧
  wire r.2 = wire g ++ [pkt] ∧
  protocol_state r.2 = protocol_state g.
Proof.
  intros Hm He Hr. cbv zeta.
  destruct (send_recv_pfcp_mismatch pkt expected 0 response g Hm) as (H1 & H2).
  rewrite He, Hr in H2.
  destruct (send_recv_pfcp_frame pkt expected 0 response g) as (H4 & H5).
  split_and!; try done; [|by apply untouched_protocol_state].
  rewrite send_recv_pfcp_run, bool_decide_eq_false_2 by done.
  unfold PFCPmessageType_at. rewrite He, Hr.
  destruct g as [? ? ? ? ? ? pf ? ? ? ? ? ?]. by destruct pf.
Qed.

Lemma unnamed_reply_kind_raises_witness :
  let response := mkResponse "" 0 [] in
  (message_type response ≠ 6 ∧ PFCPmessageType !! message_type response = None) ∧
  let r := send_recv_pfcp example_packet 6 0 response example_globals in
  r.1 = Raise (KeyError 0) ∧
  stdout r.2 = stdout example_globals ∧
  wire r.2 = wire example_globals ++ [example_packet] ∧
  protocol_state r.2 = protocol_state example_globals.
Proof.
  assert (H1 : message_type (mkResponse "" 0 []) ≠ 6) by discriminate.
  assert (H2 : PFCPmessageType !! 6 = Some "association_setup_response")
    by (vm_compute; reflexivity).
  assert (H3 : PFCPmessageType !! message_type (mkResponse "" 0 []) = None)
    by (vm_compute; reflexivity).
  split; [by split|].
  exact (unnamed_reply_kind_raises example_packet 6 (mkResponse "" 0 [])
           example_globals _ H1 H2 H3).
Defined.

(** ** More on the association *)






(** ** The address generator *)

Lemma AddrGen_take_suspended n base_addr count offset :
  0 ≤ base_addr + offset → base_addr + count ≤ 2 ^ 32 →
  offset + Z.of_nat n < count →
  AddrGen_take n (AddrGen_suspended base_addr count offset)
  = Return (seqZ (base_addr + offset + 1) (Z.of_nat n),
            AddrGen_suspended base_addr count (offset + Z.of_nat n)).
Proof.
  revert offset. induction n as [|n IH]; intros offset H0 H1 H2.
  { cbn [AddrGen_take]. by rewrite Z.add_0_r. }
  cbn [AddrGen_take AddrGen_next]. unfold AddrGen_loop.
  rewrite bool_decide_eq_true_2 by lia. unfold IPv4Address.
  rewrite bool_decide_eq_true_2 by lia. cbn [mbind result_bind].
  rewrite IH by lia. cbn [mbind result_bind].
  rewrite (seqZ_cons (base_addr + offset + 1) (Z.of_nat (Datatypes.S n))) by lia.
  replace (Z.succ (base_addr + offset + 1)) with (base_addr + (offset + 1) + 1)
    by lia.
  replace (Z.pred (Z.of_nat (Datatypes.S n))) with (Z.of_nat n) by lia.
  replace (offset + Z.of_nat (Datatypes.S n)) with (offset + 1 + Z.of_nat n)
    by lia.
  by replace (base_addr + (offset + 1)) with (base_addr + offset + 1) by lia.
Qed.

(** X7. For a prefix inside the 32-bit address space and a count below the
    size of the prefix, the generator yields exactly [count] addresses:
    the ones following the network address, in order; it skips the network
    address itself, stays inside the prefix, and is exhausted after
    them. *)
Theorem addresses_from_prefix (prefix : IPv4Network) (count : Z) :
  0 ≤ network_address prefix →
  network_address prefix + 2 ^ (max_prefixlen - prefixlen prefix) ≤ 2 ^ 32 →
  0 ≤ count < 2 ^ (max_prefixlen - prefixlen prefix) →
  ∃ gen,
    AddrGen_take (Z.to_nat count) (get_addresses_from_prefix prefix count)
    = Return (seqZ (network_address prefix + 1) count, gen) ∧
    AddrGen_next gen = Raise StopIteration ∧
    ∀ a, a ∈ seqZ (network_address prefix + 1) count →
         network_address prefix < a
         < network_address prefix + 2 ^ (max_prefixlen - prefixlen prefix).
Proof.
  intros H0 H1 [H2 H3].
  assert (Hin : ∀ a, a ∈ seqZ (network_address prefix + 1) count →
            network_address prefix < a
            < network_address prefix + 2 ^ (max_prefixlen - prefixlen prefix)).
  { intros a Ha%elem_of_seqZ. lia. }
  unfold get_addresses_from_prefix.
  destruct (Z.to_nat count) as [|n] eqn:En.
  - assert (count = 0) as -> by lia. eexists. split_and!; [done| |done].
    cbn [AddrGen_next]. rewrite bool_decide_eq_false_2 by lia.
    unfold AddrGen_loop. by rewrite bool_decide_eq_false_2 by lia.
  - cbn [AddrGen_take AddrGen_next]. rewrite bool_decide_eq_false_2 by lia.
    unfold AddrGen_loop. rewrite bool_decide_eq_true_2 by lia.
    unfold IPv4Address. rewrite bool_decide_eq_true_2 by lia.
    cbn [mbind result_bind].
    rewrite AddrGen_take_suspended by lia. cbn [mbind result_bind].
    eexists. split_and!; [| |done].
    + rewrite (seqZ_cons (network_address prefix + 1) count) by lia.
      replace (network_address prefix + 1 + 0 + 1)
        with (Z.succ (network_address prefix + 1)) by lia.
      replace (network_address prefix + 1 + 0) with (network_address prefix + 1)
        by lia.
      by replace (Z.pred count) with (Z.of_nat n) by lia.
    + cbn [AddrGen_next]. unfold AddrGen_loop.
      by rewrite bool_decide_eq_false_2 by lia.
Qed.

Lemma addresses_from_prefix_witness :
  let prefix := mkIPv4Network 285212672 24 in
  (0 ≤ network_address prefix ∧
   network_address prefix + 2 ^ (max_prefixlen - prefixlen prefix) ≤ 2 ^ 32 ∧
   0 ≤ 3 < 2 ^ (max_prefixlen - prefixlen prefix)) ∧
  ∃ gen,
    AddrGen_take (Z.to_nat 3) (get_addresses_from_prefix prefix 3)
    = Return (seqZ (network_address prefix + 1) 3, gen) ∧
    AddrGen_next gen = Raise StopIteration ∧
    ∀ a, a ∈ seqZ (network_address prefix + 1) 3 →
         network_address prefix < a
         < network_address prefix + 2 ^ (max_prefixlen - prefixlen prefix).
Proof.
  assert (H0 : 0 ≤ network_address (mkIPv4Network 285212672 24)) by (cbn; lia).
  assert (H1 : network_address (mkIPv4Network 285212672 24)
               + 2 ^ (max_prefixlen - prefixlen (mkIPv4Network 285212672 24))
               ≤ 2 ^ 32) by (vm_compute; discriminate).
  assert (H2 : 0 ≤ 3 < 2 ^ (max_prefixlen - prefixlen (mkIPv4Network 285212672 24)))
    by (vm_compute; split; [discriminate|reflexivity]).
  split; [by split_and!|].
  exact (addresses_from_prefix (mkIPv4Network 285212672 24) 3 H0 H1 H2).
Defined.





(** X9. [ip2int] and [int2ip] are inverse to each other on the 32-bit
    addresses: an address goes through its four bytes and back unchanged,
    and [int2ip] refuses every other integer. *)
Theorem ip2int_int2ip (n : Z) :
  (0 ≤ n < 2 ^ 32 →
   (int2ip n ≫= ip2int) = Return n ∧ (ip2int n ≫= int2ip) = Return n ∧
   Forall (λ b, 0 ≤ b < 256) (packed n)) ∧
  (¬ 0 ≤ n < 2 ^ 32 → int2ip n = Raise AddressValueError).
Proof.
  split.
  - intros H. assert (Hn : 0 ≤ n < 4294967296) by (by change (2 ^ 32) with 4294967296 in H).
    assert (E : ip2int n = Return n).
    { unfold ip2int, packed, struct_unpack_I. f_equal.
      Z.to_euclidean_division_equations. lia. }
    unfold int2ip, IPv4Address. rewrite bool_decide_eq_true_2 by done.
    cbn [mbind result_bind]. rewrite E. cbn [mbind result_bind].
    unfold IPv4Address. rewrite bool_decide_eq_true_2 by done.
    split_and!; [done..|].
    unfold packed. repeat constructor; Z.to_euclidean_division_equations; lia.
  - intros H. unfold int2ip, IPv4Address. by rewrite bool_decide_eq_false_2.
Qed.

(** ** More on session deletion *)

Lemma range_nil start n : n ≤ 0 → range start (start + n) = [].
Proof. intros H. unfold range. apply seqZ_nil. lia. Qed.

(** X10. With no session to delete ([ue_count] zero or negative) the loop
    of [delete_pfcp_sessions] binds no packet and the call fails on the
    unbound variable: nothing is sent and no global changes. *)
Theorem delete_nothing (args : Namespace) (response : Response) (g : Globals) :
  ue_count args ≤ 0 →
  delete_pfcp_sessions args response g = (Raise (UnboundLocalError "pkt"), g).
Proof.
  intros H. unfold delete_pfcp_sessions. rewrite range_nil by done.
  cbn [delete_loop]. by erewrite bind_Return by reflexivity.
Qed.

Lemma delete_nothing_witness :
  let args := mkNamespace delete_ false 0 (mkIPv4Network 285212672 24)
                2348442878 2348442625 1 255 1 1 1 1 2 in
  ue_count args ≤ 0 ∧
  delete_pfcp_sessions args (mkResponse "" 55 []) example_globals
  = (Raise (UnboundLocalError "pkt"), example_globals).
Proof.
  cbv zeta.
  assert (H : ue_count (mkNamespace delete_ false 0 (mkIPv4Network 285212672 24)
                2348442878 2348442625 1 255 1 1 1 1 2) ≤ 0) by (cbn; lia).
  split; [exact H|].
  exact (delete_nothing _ (mkResponse "" 55 []) example_globals H).
Defined.






(** ** What the handlers leave alone *)

Lemma preserves_ret {A B} (f : Globals → B) (a : A) : preserves f (mret a : M A).
Proof. done. Qed.

Lemma preserves_raise {A B : Type} (f : Globals → B) (e : exn) : preserves f (raise e : M A).
Proof. done. Qed.

Lemma preserves_lift {A B : Type} (f : Globals → B) (r : result A) : preserves f (lift r).
Proof. done. Qed.

Lemma preserves_gets {B C : Type} (f : Globals → B) (h : Globals → C) :
  preserves f (gets h).
Proof. done. Qed.

Lemma preserves_modify {B} (f : Globals → B) (h : Globals → Globals) :
  (∀ g, f (h g) = f g) → preserves f (modify h).
Proof. intros H g. apply H. Qed.

Lemma preserves_bind {A B C} (f : Globals → C) (c : M A) (k : A → M B) :
  preserves f c → (∀ a, preserves f (k a)) → preserves f (c ≫= k).
Proof.
  intros Hc Hk g. rewrite bind_run. specialize (Hc g).
  destruct (c g) as [[a|e] g1]; cbn [fst snd] in *; [|done].
  by rewrite Hk.
Qed.

Lemma preserves_for_range {S B} (f : Globals → B) n (body : S → M S) s :
  (∀ s, preserves f (body s)) → preserves f (for_range n body s).
Proof.
  intros H. revert s. induction n as [|n IH]; intros s; cbn [for_range].
  - apply preserves_ret.
  - by apply preserves_bind.
Qed.

Lemma preserves_for_each {A B} (f : Globals → B) (l : list A) (body : A → M unit) :
  (∀ x, preserves f (body x)) → preserves f (for_each l body).
Proof.
  intros H. induction l as [|x l IH]; cbn [for_each].
  - apply preserves_ret.
  - by apply preserves_bind.
Qed.

Lemma preserves_get_sequence_num {B} (f : Globals → B) reset :
  (∀ v g, f (set_sequence_number v g) = f g) →
  preserves f (get_sequence_num reset).
Proof.
  intros H g. unfold get_sequence_num. cbn [snd]. rewrite H.
  destruct reset; [apply H|done].
Qed.

Lemma preserves_append_unless_sent {B} (f : Globals → B) force_add k id rule request :
  (∀ v g, f (set_sent_rules v g) = f g) →
  preserves f (append_unless_sent force_add k id rule request).
Proof.
  intros H g. unfold append_unless_sent. destruct force_add; [done|].
  destruct (already_sent_kind k id rule (sent_rules g)). cbn [snd]. apply H.
Qed.

Lemma preserves_MSG_TYPES_at {B} (f : Globals → B) name :
  preserves f (MSG_TYPES_at name).
Proof. unfold MSG_TYPES_at. by destruct (MSG_TYPES !! name). Qed.

Lemma preserves_PFCPmessageType_at {B} (f : Globals → B) n :
  preserves f (PFCPmessageType_at n).
Proof. unfold PFCPmessageType_at. by destruct (PFCPmessageType !! n). Qed.

Ltac preserves_step :=
  first
    [ apply preserves_ret | apply preserves_raise | apply preserves_lift
    | apply preserves_gets | apply preserves_MSG_TYPES_at
    | apply preserves_PFCPmessageType_at
    | apply preserves_get_sequence_num; solve [auto]
    | apply preserves_append_unless_sent; solve [auto]
    | apply preserves_modify; intros; cbv beta; solve [auto]
    | lazymatch goal with
      | |- preserves _ (match ?x with _ => _ end) => destruct x
      | |- preserves _ (let _ := _ in _) => cbv zeta
      | |- preserves _ (print _) => unfold print
      | |- preserves _ (send _) => unfold send
      | |- preserves _ (capture _) => unfold capture
      | |- preserves _ (when _ _) => unfold when
      | |- preserves _ (make_packet _ _) => unfold make_packet
      | |- preserves _ (mbind _ _) => apply preserves_bind; [|intros ?]
      end ].

Section ignores.
Context {B : Type} (f : Globals → B) (Hf : ignores_exchange f).

Local Ltac start :=
  destruct Hf as (Hf1 & Hf2 & Hf3 & Hf4 & Hf5 & Hf6).

Lemma preserves_handle_ie verbosity ie : preserves f (handle_ie verbosity ie).
Proof. start. unfold handle_ie. repeat preserves_step. Qed.

Lemma preserves_send_recv_pfcp pkt expected verbosity response :
  preserves f (send_recv_pfcp pkt expected verbosity response).
Proof.
  pose proof preserves_handle_ie as Hie. start. unfold send_recv_pfcp.
  repeat first [ apply preserves_for_each; intros; apply Hie | preserves_step ].
Qed.

Lemma preserves_add_rules_to_request args request update add_pdrs add_fars
    add_urrs add_qers force_add :
  preserves f (add_rules_to_request args request update add_pdrs add_fars
                 add_urrs add_qers force_add).
Proof.
  start. unfold add_rules_to_request.
  apply preserves_bind; [|intros []; apply preserves_ret].
  apply preserves_for_range. intros [gens request'].
  unfold add_rules_for_ue, add_pdrs_block, add_fars_block, add_qers_block,
    add_urrs_block.
  repeat preserves_step.
Qed.

Lemma preserves_craft_pfcp_session_delete_packet session :
  preserves f (craft_pfcp_session_delete_packet session).
Proof. start. unfold craft_pfcp_session_delete_packet. repeat preserves_step. Qed.

Lemma preserves_delete_loop seids pkt : preserves f (delete_loop seids pkt).
Proof.
  pose proof preserves_craft_pfcp_session_delete_packet as Hc.
  revert pkt. induction seids as [|seid seids IH]; intros pkt; cbn [delete_loop].
  - apply preserves_ret.
  - repeat first [ apply Hc | apply IH | preserves_step ].
Qed.

Lemma preserves_delete_pfcp_sessions args response :
  preserves f (delete_pfcp_sessions args response).
Proof.
  pose proof preserves_delete_loop as Hl.
  pose proof preserves_send_recv_pfcp as Hs. start.
  unfold delete_pfcp_sessions.
  repeat first [ apply Hl | apply Hs | preserves_step ].
Qed.

Lemma preserves_create_pfcp_sessions args response :
  preserves f (create_pfcp_sessions args response).
Proof.
  pose proof preserves_add_rules_to_request as Ha.
  pose proof preserves_send_recv_pfcp as Hs. start.
  unfold create_pfcp_sessions, craft_pfcp_session_est_packet.
  repeat first [ apply Ha | apply Hs | preserves_step ].
Qed.

Lemma preserves_modify_pfcp_sessions args response :
  preserves f (modify_pfcp_sessions args response).
Proof.
  pose proof preserves_add_rules_to_request as Ha.
  pose proof preserves_send_recv_pfcp as Hs. start.
  unfold modify_pfcp_sessions, craft_pfcp_session_modify_packet.
  repeat first [ apply Ha | apply Hs | preserves_step ].
Qed.


End ignores.


Lemma ignores_exchange_script_terminating : ignores_exchange script_terminating.
Proof. by repeat split. Qed.

Lemma ignores_exchange_association_established :
  ignores_exchange association_established.
Proof. by repeat split. Qed.

Lemma preserves_setup_pfcp_association {B} (f : Globals → B) args response :
  ignores_exchange f →
  (∀ v g, f (set_association_established v g) = f g) →
  preserves f (setup_pfcp_association args response).
Proof.
  intros Hf Ha. pose proof (preserves_send_recv_pfcp f Hf) as Hs.
  destruct Hf as (Hf1 & Hf2 & Hf3 & Hf4 & Hf5 & Hf6).
  unfold setup_pfcp_association, craft_pfcp_association_setup_packet.
  repeat first [ apply Hs | preserves_step ].
Qed.

Lemma preserves_teardown_pfcp_association {B} (f : Globals → B) args response :
  ignores_exchange f →
  (∀ v g, f (set_association_established v g) = f g) →
  preserves f (teardown_pfcp_association args response).
Proof.
  intros Hf Ha. pose proof (preserves_send_recv_pfcp f Hf) as Hs.
  destruct Hf as (Hf1 & Hf2 & Hf3 & Hf4 & Hf5 & Hf6).
  unfold teardown_pfcp_association, craft_pfcp_association_release_packet.
  repeat first [ apply Hs | preserves_step ].
Qed.







(** ** What ends the command thread *)

Lemma never_exits_ret {A} (a : A) : never_exits (mret a : M A).
Proof. done. Qed.

Lemma never_exits_raise {A : Type} (e : exn) :
  e ≠ SystemExit → never_exits (raise e : M A).
Proof. intros H g [= ?]. done. Qed.

Lemma never_exits_lift {A} (r : result A) :
  r ≠ Raise SystemExit → never_exits (lift r).
Proof. intros H g. done. Qed.

Lemma never_exits_gets {A} (h : Globals → A) : never_exits (gets h).
Proof. done. Qed.

Lemma never_exits_modify (h : Globals → Globals) : never_exits (modify h).
Proof. done. Qed.

Lemma never_exits_bind {A B} (c : M A) (k : A → M B) :
  never_exits c → (∀ a, never_exits (k a)) → never_exits (c ≫= k).
Proof.
  intros Hc Hk g. rewrite bind_run. specialize (Hc g).
  destruct (c g) as [[a|e] g1]; cbn [fst snd] in *; [apply Hk|].
  intros [= ->]. by apply Hc.
Qed.

Lemma never_exits_for_range {S} n (body : S → M S) s :
  (∀ s, never_exits (body s)) → never_exits (for_range n body s).
Proof.
  intros H. revert s. induction n as [|n IH]; intros s; cbn [for_range].
  - apply never_exits_ret.
  - by apply never_exits_bind.
Qed.

Lemma never_exits_for_each {A} (l : list A) (body : A → M unit) :
  (∀ x, never_exits (body x)) → never_exits (for_each l body).
Proof.
  intros H. induction l as [|x l IH]; cbn [for_each].
  - apply never_exits_ret.
  - by apply never_exits_bind.
Qed.

Lemma never_exits_get_sequence_num reset : never_exits (get_sequence_num reset).
Proof. done. Qed.

Lemma never_exits_append_unless_sent force_add k id rule request :
  never_exits (append_unless_sent force_add k id rule request).
Proof.
  intros g. unfold append_unless_sent. destruct force_add; [done|].
  by destruct (already_sent_kind k id rule (sent_rules g)).
Qed.

Lemma never_exits_MSG_TYPES_at name : never_exits (MSG_TYPES_at name).
Proof. unfold MSG_TYPES_at. by destruct (MSG_TYPES !! name). Qed.

Lemma never_exits_PFCPmessageType_at n : never_exits (PFCPmessageType_at n).
Proof. unfold PFCPmessageType_at. by destruct (PFCPmessageType !! n). Qed.

Lemma craft_pdr_never_exits session id far_id qer_id urr_id src_iface ue_addr
    from_tunnel tunnel_dst teid precedence :
  craft_pdr session id far_id qer_id urr_id src_iface ue_addr from_tunnel
    tunnel_dst teid precedence ≠ Raise SystemExit.
Proof.
  unfold craft_pdr.
  by destruct (bool_decide _), from_tunnel, tunnel_dst, teid, ue_addr.
Qed.

Lemma craft_far_never_exits session id update forward_flag drop_flag buffer_flag
    dst_iface tunnel tunnel_dst teid :
  craft_far session id update forward_flag drop_flag buffer_flag dst_iface tunnel
    tunnel_dst teid ≠ Raise SystemExit.
Proof.
  unfold craft_far.
  by destruct (bool_decide _), tunnel, buffer_flag, tunnel_dst, teid.
Qed.

Lemma next_raises gen e : next gen = Raise e → e = StopIteration.
Proof. destruct gen; [|done]. by intros [= <-]. Qed.

Lemma AddrGen_next_raises gen e : AddrGen_next gen = Raise e → e ≠ SystemExit.
Proof.
  unfold AddrGen_next, AddrGen_loop, IPv4Address.
  destruct gen; repeat case_bool_decide; cbn; by intros [= <-].
Qed.

Lemma draw_never_exits gens : draw gens ≠ Raise SystemExit.
Proof.
  unfold draw. intros H.
  repeat match type of H with
  | context [mbind _ (next ?gen)] =>
      let E := fresh "E" in
      destruct (next gen) as [[? ?]|?] eqn:E;
        [|apply next_raises in E; cbn in H; congruence];
      cbn [mbind result_bind] in H
  | context [mbind _ (AddrGen_next ?gen)] =>
      let E := fresh "E" in
      destruct (AddrGen_next gen) as [[? ?]|?] eqn:E;
        [|apply AddrGen_next_raises in E; cbn in H; congruence];
      cbn [mbind result_bind] in H
  end.
  done.
Qed.

Ltac never_exits_step :=
  first
    [ apply never_exits_ret | apply never_exits_gets | apply never_exits_modify
    | apply never_exits_MSG_TYPES_at | apply never_exits_PFCPmessageType_at
    | apply never_exits_get_sequence_num | apply never_exits_append_unless_sent
    | apply never_exits_raise; discriminate
    | apply never_exits_lift;
        first [ apply craft_pdr_never_exits | apply craft_far_never_exits
              | apply draw_never_exits ]
    | lazymatch goal with
      | |- never_exits (match ?x with _ => _ end) => destruct x
      | |- never_exits (let _ := _ in _) => cbv zeta
      | |- never_exits (print _) => unfold print
      | |- never_exits (send _) => unfold send
      | |- never_exits (capture _) => unfold capture
      | |- never_exits (when _ _) => unfold when
      | |- never_exits (make_packet _ _) => unfold make_packet
      | |- never_exits (mbind _ _) => apply never_exits_bind; [|intros ?]
      end ].

Lemma never_exits_send_recv_pfcp pkt expected verbosity response :
  never_exits (send_recv_pfcp pkt expected verbosity response).
Proof.
  unfold send_recv_pfcp.
  repeat first [ apply never_exits_for_each; intros; unfold handle_ie
               | never_exits_step ].
Qed.

Lemma never_exits_add_rules_to_request args request update add_pdrs add_fars
    add_urrs add_qers force_add :
  never_exits (add_rules_to_request args request update add_pdrs add_fars
                 add_urrs add_qers force_add).
Proof.
  unfold add_rules_to_request.
  apply never_exits_bind; [|intros []; apply never_exits_ret].
  apply never_exits_for_range. intros [gens request'].
  unfold add_rules_for_ue, add_pdrs_block, add_fars_block, add_qers_block,
    add_urrs_block.
  repeat never_exits_step.
Qed.

Lemma never_exits_delete_loop seids pkt : never_exits (delete_loop seids pkt).
Proof.
  revert pkt. induction seids as [|seid seids IH]; intros pkt; cbn [delete_loop].
  - apply never_exits_ret.
  - unfold craft_pfcp_session_delete_packet.
    repeat first [ apply IH | never_exits_step ].
Qed.

Lemma never_exits_choice_func c args response :
  c ≠ stop → never_exits (choice_func c args response).
Proof.
  intros Hc.
  pose proof never_exits_send_recv_pfcp as Hs.
  pose proof never_exits_add_rules_to_request as Ha.
  pose proof never_exits_delete_loop as Hl.
  destruct c; [..|done]; cbn [choice_func];
    unfold setup_pfcp_association, craft_pfcp_association_setup_packet,
      create_pfcp_sessions, craft_pfcp_session_est_packet,
      modify_pfcp_sessions, craft_pfcp_session_modify_packet,
      delete_pfcp_sessions, teardown_pfcp_association,
      craft_pfcp_association_release_packet, interrupt_association;
    repeat first [ apply Hs | apply Ha | apply Hl | never_exits_step ].
Qed.

Lemma preserves_choice_func_script_terminating c args response :
  c ≠ stop → preserves script_terminating (choice_func c args response).
Proof.
  intros Hc. pose proof ignores_exchange_script_terminating as Hf.
  destruct c; [..|done]; cbn [choice_func].
  - by apply preserves_setup_pfcp_association.
  - by apply preserves_create_pfcp_sessions.
  - by apply preserves_modify_pfcp_sessions.
  - by apply preserves_delete_pfcp_sessions.
  - by apply preserves_teardown_pfcp_association.
  - done.
Qed.

(** X13. A command either returns, and then the command thread goes on and
    [script_terminating] is as before, or it raises, and then the thread is
    over with [script_terminating] set, so that the heartbeat thread
    returns at its next wake-up and the process exits: no failed command
    is survived, whatever raised. *)
Theorem command_returns_or_ends_process (args : Namespace) (response : Response)
    (g : Globals) :
  let after := handle_user_input_command args response Running g in
  (after.1 = Running ∧ choice args ≠ stop ∧
   script_terminating after.2 = script_terminating g) ∨
  (finished after.1 = true ∧ script_terminating after.2 = true ∧
   ∀ wake hb, hb_thread hb = Running →
     exited (step (Wake wake) (mkProcess after.1 hb after.2)) = true).
Proof.
  cbv zeta.
  assert (Hexit : ∀ t g', finished t = true → script_terminating g' = true →
            ∀ wake hb, hb_thread hb = Running →
              exited (step (Wake wake) (mkProcess t hb g')) = true).
  { intros t g' Ht Hg wake hb Hhb. unfold exited.
    cbn [step thread1 thread2 globals]. rewrite wake_terminating by done.
    cbn [thread1 thread2 hb_thread finished]. by rewrite Ht. }
  unfold handle_user_input_command. rewrite bind_run. cbn [print modify fst snd].
  set (g0 := set_stdout _ g).
  destruct (decide (choice args = stop)) as [Hs|Hs].
  - right. rewrite Hs. cbn [choice_func].
    destruct (terminate_spec args response g0) as (_ & _ & H).
    destruct (terminate args response g0) as [r g1]; cbn [fst snd] in *.
    destruct H as [(-> & H)|(e & -> & H)].
    + cbn [is_Exception fst snd finished]. split_and!; [done..|]. by apply Hexit.
    + rewrite H. cbn [fst snd finished].
      split_and!; [done|by destruct g1|]. apply Hexit; [done|by destruct g1].
  - pose proof (never_exits_choice_func (choice args) args response Hs g0) as Hn.
    pose proof (preserves_choice_func_script_terminating (choice args) args
                  response Hs g0) as Hp.
    destruct (choice_func (choice args) args response g0) as [[[]|e] g1];
      cbn [fst snd] in *.
    + left. split_and!; [done..|]. rewrite Hp. unfold g0. by destruct g.
    + right. assert (is_Exception e = true) as -> by (by destruct e).
      cbn [fst snd finished].
      split_and!; [done|by destruct g1|]. apply Hexit; [done|by destruct g1].
Qed.

(** ** The footprint of [add_rules_to_request] *)

Lemma preserves_add_rules_steps {B} (f : Globals → B) args request update
    add_pdrs add_fars add_urrs add_qers force_add :
  (∀ k id rule request,
     enabled k add_pdrs add_fars add_urrs add_qers = true →
     preserves f (append_unless_sent force_add k id rule request)) →
  preserves f (add_rules_to_request args request update add_pdrs add_fars
                 add_urrs add_qers force_add).
Proof.
  intros H. unfold add_rules_to_request.
  apply preserves_bind; [|intros []; apply preserves_ret].
  apply preserves_for_range. intros [gens request'].
  unfold add_rules_for_ue, add_pdrs_block, add_fars_block, add_qers_block,
    add_urrs_block.
  repeat first [ apply H; reflexivity | preserves_step ].
Qed.

Lemma preserves_append_unless_sent_other force_add k k0 id rule request :
  k ≠ k0 →
  preserves (λ g, cache_of k0 (sent_rules g))
    (append_unless_sent force_add k id rule request).
Proof.
  intros Hk g. unfold append_unless_sent. destruct force_add; [done|].
  pose proof (already_sent_kind_other k k0 id rule (sent_rules g) Hk) as H.
  destruct (already_sent_kind k id rule (sent_rules g)) as [b s].
  cbn [fst snd] in *. by destruct g.
Qed.

Lemma set_sent_rules_twice a b g :
  set_sent_rules a (set_sent_rules b g) = set_sent_rules a g.
Proof. by destruct g. Qed.

(** X14. [add_rules_to_request] changes nothing but the rule caches, and of
    those only the caches of the kinds it was asked to add; with
    [force_add] it changes nothing at all, the caches being neither read
    nor written. *)
Theorem add_rules_to_request_footprint (args : Namespace) (request : Message)
    (update add_pdrs add_fars add_urrs add_qers force_add : bool) (g : Globals) :
  let r := add_rules_to_request args request update add_pdrs add_fars add_urrs
             add_qers force_add g in
  r.2 = set_sent_rules (sent_rules r.2) g ∧
  (∀ k, enabled k add_pdrs add_fars add_urrs add_qers = false →
        cache_of k (sent_rules r.2) = cache_of k (sent_rules g)) ∧
  (force_add = true → r.2 = g).
Proof.
  cbv zeta. split_and!.
  - pose proof (preserves_add_rules_steps (set_sent_rules no_sent_rules) args
                  request update add_pdrs add_fars add_urrs add_qers force_add)
      as H.
    specialize (H (λ k id rule request _,
                     preserves_append_unless_sent _ force_add k id rule request
                       (set_sent_rules_twice no_sent_rules)) g).
    destruct (add_rules_to_request _ _ _ _ _ _ _ _ g) as [r g1].
    cbn [snd] in *. destruct g1, g; cbn in *. by simplify_eq.
  - intros k0 Hk0.
    apply (preserves_add_rules_steps (λ g, cache_of k0 (sent_rules g))).
    intros k id rule request' Hk. apply preserves_append_unless_sent_other.
    intros ->. congruence.
  - intros ->.
    apply (preserves_add_rules_steps (λ g, g)). by intros.
Qed.

(** ** The heartbeat period *)

Lemma send_heartbeat_run response g :
  send_heartbeat response g
  = send_recv_pfcp (heartbeat_packet g) 2 0 response
      (set_sequence_number (sequence_number g + 1) g).
Proof.
  unfold send_heartbeat.
  erewrite bind_Return by apply get_sequence_num_next.
  unfold MSG_TYPES_at. rewrite MSG_TYPES_heartbeat_request.
  erewrite bind_Return by reflexivity. cbv zeta.
  erewrite bind_Return by reflexivity.
  rewrite MSG_TYPES_heartbeat_response.
  erewrite bind_Return by reflexivity. by destruct g.
Qed.


Lemma wake_probe response hb g :
  hb_thread hb = Running → script_terminating g = false →
  association_established g = true → ¬ polls hb + 1 < HEARTBEAT_PERIOD →
  send_pfcp_heartbeats_wake response hb g
  = match send_heartbeat response g with
    | (Return _, g') => (mkHeartbeat Running 0, g')
    | (Raise e, g') => (mkHeartbeat (Raised e) 0, g')
    end.
Proof.
  intros H1 H2 H3 H4. unfold send_pfcp_heartbeats_wake.
  by rewrite H1, H2, H3, bool_decide_eq_false_2.
Qed.


Lemma wakes_finished responses t1 hb g :
  hb_thread hb ≠ Running →
  run (Wake <$> responses) (mkProcess t1 hb g) = mkProcess t1 hb g.
Proof.
  intros H. induction responses as [|r rs IH]; [done|].
  cbn [fmap list_fmap run foldl step thread1 thread2 globals].
  rewrite wake_finished by done. apply IH.
Qed.

Lemma PFCPmessageType_2 : PFCPmessageType !! 2 = Some "heartbeat_response".
Proof. vm_compute. reflexivity. Qed.



(** X16. A reply to a heartbeat whose message type the codec does not name
    ends the heartbeat thread with the [KeyError] of the look-up, without
    setting [script_terminating]: the association stays marked
    established and the command thread goes on, but no wake-up sends
    anything any more. *)
Theorem heartbeat_thread_dies (response : Response) (g : Globals) :
  script_terminating g = false →
  association_established g = true →
  PFCPmessageType !! message_type response = None →
  let after := send_pfcp_heartbeats_wake response (mkHeartbeat Running 4) g in
  hb_thread after.1 = Raised (KeyError (message_type response)) ∧
  wire after.2 = wire g ++ [heartbeat_packet g] ∧
  script_terminating after.2 = false ∧
  association_established after.2 = true ∧
  ∀ responses t1,
    globals (run (Wake <$> responses) (mkProcess t1 after.1 after.2)) = after.2.
Proof.
  intros Ht Ha Hn. cbv zeta.
  rewrite wake_probe
    by first [done | unfold HEARTBEAT_PERIOD; cbn [polls]; lia].
  rewrite send_heartbeat_run.
  set (g1 := set_sequence_number (sequence_number g + 1) g).
  assert (Hm : message_type response ≠ 2).
  { intros E. rewrite E, PFCPmessageType_2 in Hn. discriminate. }
  destruct (send_recv_pfcp_frame (heartbeat_packet g) 2 0 response g1)
    as ((_ & _ & _ & F2 & F3 & _) & F4).
  destruct (send_recv_pfcp_mismatch (heartbeat_packet g) 2 0 response g1 Hm)
    as (_ & H).
  rewrite PFCPmessageType_2, Hn in H.
  destruct (send_recv_pfcp (heartbeat_packet g) 2 0 response g1) as [r g2].
  cbn [fst snd] in *. subst r. cbn [fst snd hb_thread].
  split_and!; try done;
    try (first [rewrite F4 | rewrite F3 | rewrite F2]; by destruct g).
  intros responses t1. by rewrite wakes_finished.
Qed.

Lemma heartbeat_thread_dies_witness :
  let response := mkResponse "" 0 [] in
  let g := set_association_established true example_globals in
  (script_terminating g = false ∧ association_established g = true ∧
   PFCPmessageType !! message_type response = None) ∧
  let after := send_pfcp_heartbeats_wake response (mkHeartbeat Running 4) g in
  hb_thread after.1 = Raised (KeyError 0) ∧
  script_terminating after.2 = false.
Proof.
  cbv zeta.
  assert (H1 : script_terminating
                 (set_association_established true example_globals) = false)
    by reflexivity.
  assert (H2 : association_established
                 (set_association_established true example_globals) = true)
    by reflexivity.
  assert (H3 : PFCPmessageType !! message_type (mkResponse "" 0 []) = None)
    by (vm_compute; reflexivity).
  split; [by split_and!|].
  destruct (heartbeat_thread_dies (mkResponse "" 0 []) _ H1 H2 H3)
    as (R1 & _ & R2 & _).
  by split.
Defined.

(** ** A request with every rule in it *)






























(** ** The request of a create command *)





(** ** What goes to the network *)

Lemma silent_bind {A B} (c : M A) (k : A → M B) :
  silent c → (∀ a, silent (k a)) → silent (c ≫= k).
Proof.
  intros (H1 & H2 & H3) Hk.
  split_and!; (apply preserves_bind; [done|intros a; by destruct (Hk a) as (? & ? & ?)]).
Qed.

Ltac silent_tac := split_and!; repeat preserves_step.

Lemma makes_bind src dst {A B} (c : M A) (k : A → M B) Q :
  silent c → (∀ a, makes src dst (k a) Q) → makes src dst (c ≫= k) Q.
Proof.
  intros (_ & H2 & H3) Hk g b g' Hs Hd E. rewrite bind_run in E.
  specialize (H2 g). specialize (H3 g).
  destruct (c g) as [[a|e] g1]; cbn [fst snd] in *; [|done].
  eapply Hk; [| |done]; congruence.
Qed.

Lemma makes_raise src dst {A} e (Q : A → Prop) : makes src dst (raise e) Q.
Proof. by intros g a g' _ _ E. Qed.

Lemma makes_make_packet src dst pfcp_header request :
  makes src dst (make_packet pfcp_header request) (addressed src dst).
Proof. intros g pkt g' Hs Hd [= <- <-]. by split. Qed.

Lemma sends_silent src dst {A} (c : M A) : silent c → sends_at_most_one src dst c.
Proof.
  intros (H1 & H2 & H3) g Hs Hd. exists [].
  rewrite app_nil_r. split_and!; [apply H1|cbn; lia|done|by rewrite H2|by rewrite H3].
Qed.

Lemma sends_bind_l src dst {A B} (c : M A) (k : A → M B) :
  silent c → (∀ a, sends_at_most_one src dst (k a)) →
  sends_at_most_one src dst (c ≫= k).
Proof.
  intros (H1 & H2 & H3) Hk g Hs Hd. rewrite bind_run.
  specialize (H1 g). specialize (H2 g). specialize (H3 g).
  destruct (c g) as [[a|e] g1]; cbn [fst snd] in *.
  - destruct (Hk a g1) as (l & Hw & Hl); [congruence..|].
    exists l. by rewrite Hw, H1.
  - exists []. rewrite app_nil_r. split_and!; [done|cbn; lia|done|congruence..].
Qed.

Lemma sends_bind_r src dst {A B} (c : M A) (k : A → M B) :
  sends_at_most_one src dst c → (∀ a, silent (k a)) →
  sends_at_most_one src dst (c ≫= k).
Proof.
  intros Hc Hk g Hs Hd. rewrite bind_run.
  destruct (Hc g Hs Hd) as (l & Hw & Hl & Hf & Ho & Hp).
  destruct (c g) as [[a|e] g1]; cbn [fst snd] in *.
  - destruct (Hk a) as (K1 & K2 & K3). exists l.
    by rewrite K1, K2, K3.
  - by exists l.
Qed.

(** A packet is built, without sending, and handed on. *)
Lemma sends_build src dst {A B} (build : M A) (rest : A → M B) (Q : A → Prop) :
  silent build → makes src dst build Q →
  (∀ a, Q a → sends_at_most_one src dst (rest a)) →
  sends_at_most_one src dst (build ≫= rest).
Proof.
  intros (H1 & H2 & H3) Hm Hrest g Hs Hd. rewrite bind_run.
  specialize (H1 g). specialize (H2 g). specialize (H3 g). specialize (Hm g).
  destruct (build g) as [[a|e] g1]; cbn [fst snd] in *.
  - destruct (Hrest a (Hm a g1 Hs Hd eq_refl) g1) as (l & Hw & Hl); [congruence..|].
    exists l. by rewrite Hw, H1.
  - exists []. rewrite app_nil_r. split_and!; [done|cbn; lia|done|congruence..].
Qed.

Lemma ignores_exchange_our_addr : ignores_exchange our_addr.
Proof. by repeat split. Qed.

Lemma ignores_exchange_peer_addr : ignores_exchange peer_addr.
Proof. by repeat split. Qed.

Lemma sends_send_recv_pfcp src dst pkt expected verbosity response :
  addressed src dst pkt →
  sends_at_most_one src dst (send_recv_pfcp pkt expected verbosity response).
Proof.
  intros Hpkt g Hs Hd. exists [pkt].
  destruct (send_recv_pfcp_frame pkt expected verbosity response g) as (Hu & Hw).
  destruct Hu as (Ho & Hp & _).
  split_and!; [done|cbn; lia|by apply Forall_singleton|congruence..].
Qed.

(** The request builders send nothing: they change the sequence counter
    and the rule caches only. *)
Lemma builder_add_rules_to_request {B} (f : Globals → B) args request update
    add_pdrs add_fars add_urrs add_qers force_add :
  (∀ v g, f (set_sent_rules v g) = f g) →
  preserves f (add_rules_to_request args request update add_pdrs add_fars add_urrs
                 add_qers force_add).
Proof.
  intros H. apply preserves_add_rules_steps. intros.
  by apply preserves_append_unless_sent.
Qed.

Lemma builder_craft_pfcp_session_est_packet {B} (f : Globals → B) args :
  (∀ v g, f (set_sequence_number v g) = f g) →
  (∀ v g, f (set_sent_rules v g) = f g) →
  preserves f (craft_pfcp_session_est_packet args).
Proof.
  intros H1 H2. unfold craft_pfcp_session_est_packet.
  repeat first [ apply builder_add_rules_to_request; assumption | preserves_step ].
Qed.

Lemma builder_craft_pfcp_session_modify_packet {B} (f : Globals → B) args :
  (∀ v g, f (set_sequence_number v g) = f g) →
  (∀ v g, f (set_sent_rules v g) = f g) →
  preserves f (craft_pfcp_session_modify_packet args).
Proof.
  intros H1 H2. unfold craft_pfcp_session_modify_packet.
  repeat first [ apply builder_add_rules_to_request; assumption
               | preserves_step
               | lazymatch goal with
                 | |- preserves _ (if ?b then _ else _) => destruct b
                 end ].
Qed.

Lemma builder_craft_pfcp_session_delete_packet {B} (f : Globals → B) session :
  (∀ v g, f (set_sequence_number v g) = f g) →
  preserves f (craft_pfcp_session_delete_packet session).
Proof.
  intros H1. unfold craft_pfcp_session_delete_packet. repeat preserves_step.
Qed.

Lemma builder_delete_loop {B} (f : Globals → B) seids pkt :
  (∀ v g, f (set_sequence_number v g) = f g) →
  preserves f (delete_loop seids pkt).
Proof.
  intros H1. revert pkt. induction seids as [|seid seids IH]; intros pkt.
  - apply preserves_ret.
  - cbn [delete_loop].
    repeat first [ apply IH | apply builder_craft_pfcp_session_delete_packet; assumption
                 | preserves_step ].
Qed.

Lemma silent_craft_pfcp_session_est_packet args :
  silent (craft_pfcp_session_est_packet args).
Proof. split_and!; by apply builder_craft_pfcp_session_est_packet. Qed.

Lemma silent_craft_pfcp_session_modify_packet args :
  silent (craft_pfcp_session_modify_packet args).
Proof. split_and!; by apply builder_craft_pfcp_session_modify_packet. Qed.

Lemma silent_delete_loop seids pkt : silent (delete_loop seids pkt).
Proof. split_and!; by apply builder_delete_loop. Qed.

Lemma silent_MSG_TYPES_at name : silent (MSG_TYPES_at name).
Proof. silent_tac. Qed.

Lemma silent_get_sequence_num reset : silent (get_sequence_num reset).
Proof. silent_tac. Qed.

Lemma silent_gets {A} (h : Globals → A) : silent (gets h).
Proof. silent_tac. Qed.

Lemma silent_print o : silent (print o).
Proof. silent_tac. Qed.

Lemma silent_make_packet pfcp_header request :
  silent (make_packet pfcp_header request).
Proof. silent_tac. Qed.

(** The builders address their packets from [our_addr] to [peer_addr]. *)
Lemma makes_craft_pfcp_association_setup_packet src dst :
  makes src dst craft_pfcp_association_setup_packet (addressed src dst).
Proof. intros g pkt g' Hs Hd [= <- <-]. by split. Qed.

Lemma makes_craft_pfcp_association_release_packet src dst :
  makes src dst craft_pfcp_association_release_packet (addressed src dst).
Proof. intros g pkt g' Hs Hd [= <- <-]. by split. Qed.

Lemma makes_craft_pfcp_session_est_packet src dst args :
  makes src dst (craft_pfcp_session_est_packet args) (addressed src dst).
Proof.
  unfold craft_pfcp_session_est_packet.
  apply makes_bind; [apply silent_MSG_TYPES_at|intros message_type].
  apply makes_bind; [apply silent_get_sequence_num|intros seq].
  apply makes_bind; [apply silent_gets|intros our_addr].
  apply makes_bind; [apply silent_gets|intros our_seid].
  apply makes_bind; [split_and!; by apply builder_add_rules_to_request|intros request].
  apply makes_make_packet.
Qed.

Lemma makes_craft_pfcp_session_modify_packet src dst args :
  makes src dst (craft_pfcp_session_modify_packet args) (addressed src dst).
Proof.
  unfold craft_pfcp_session_modify_packet.
  apply makes_bind; [apply silent_MSG_TYPES_at|intros message_type].
  apply makes_bind; [apply silent_gets|intros peer_seid].
  case_bool_decide; [apply makes_raise|].
  apply makes_bind; [apply silent_get_sequence_num|intros seq].
  apply makes_bind; [apply silent_gets|intros our_seid].
  apply makes_bind; [apply silent_gets|intros our_addr].
  apply makes_bind; [split_and!; by apply builder_add_rules_to_request|intros request].
  apply makes_make_packet.
Qed.

Lemma makes_craft_pfcp_session_delete_packet src dst session :
  makes src dst (craft_pfcp_session_delete_packet session) (addressed src dst).
Proof.
  unfold craft_pfcp_session_delete_packet.
  apply makes_bind; [apply silent_MSG_TYPES_at|intros message_type].
  destruct (Session.peer_seid session); [|apply makes_raise].
  apply makes_bind; [apply silent_get_sequence_num|intros seq].
  apply makes_bind; [apply silent_gets|intros our_addr].
  apply makes_make_packet.
Qed.

Lemma makes_delete_loop src dst seids :
  ∀ pkt0,
    (∀ pkt, pkt0 = Some pkt → addressed src dst pkt) →
    makes src dst (delete_loop seids pkt0)
      (λ o, ∀ pkt, o = Some pkt → addressed src dst pkt).
Proof.
  induction seids as [|seid seids IH]; intros pkt0 H0.
  - by intros g o g' _ _ [= <- <-].
  - cbn [delete_loop].
    apply makes_bind; [apply silent_gets|intros registry].
    destruct (registry !! seid) as [session|]; [|apply makes_raise].
    intros g o g' Hs Hd E. rewrite bind_run in E.
    pose proof (makes_craft_pfcp_session_delete_packet src dst session g) as Hm.
    pose proof (builder_craft_pfcp_session_delete_packet our_addr session
                  (λ _ _, eq_refl) g) as Ho.
    pose proof (builder_craft_pfcp_session_delete_packet peer_addr session
                  (λ _ _, eq_refl) g) as Hp.
    destruct (craft_pfcp_session_delete_packet session g) as [[pkt|e] g1];
      cbn [fst snd] in *; [|done].
    eapply (IH (Some pkt)); [| | |exact E]; [|congruence..].
    intros ? [= <-]. by eapply Hm.
Qed.

(** ** The handlers *)

Lemma sends_exchange src dst pkt name response :
  addressed src dst pkt →
  sends_at_most_one src dst
    (expected ← MSG_TYPES_at name; send_recv_pfcp pkt expected 0 response).
Proof.
  intros H. apply sends_bind_l; [apply silent_MSG_TYPES_at|intros expected].
  by apply sends_send_recv_pfcp.
Qed.

Lemma sends_setup_pfcp_association src dst args response :
  sends_at_most_one src dst (setup_pfcp_association args response).
Proof.
  unfold setup_pfcp_association.
  apply sends_bind_l; [apply silent_get_sequence_num|intros _].
  eapply sends_build;
    [silent_tac|apply makes_craft_pfcp_association_setup_packet|intros pkt Hpkt].
  apply sends_bind_l; [apply silent_MSG_TYPES_at|intros expected].
  apply sends_bind_r; [by apply sends_send_recv_pfcp|intros _; silent_tac].
Qed.

Lemma sends_teardown_pfcp_association src dst args response :
  sends_at_most_one src dst (teardown_pfcp_association args response).
Proof.
  unfold teardown_pfcp_association.
  eapply sends_build;
    [silent_tac|apply makes_craft_pfcp_association_release_packet|intros pkt Hpkt].
  apply sends_bind_l; [apply silent_MSG_TYPES_at|intros expected].
  apply sends_bind_r; [by apply sends_send_recv_pfcp|intros _; silent_tac].
Qed.

Lemma sends_create_pfcp_sessions src dst args response :
  sends_at_most_one src dst (create_pfcp_sessions args response).
Proof.
  unfold create_pfcp_sessions. cbv zeta.
  eapply sends_build;
    [apply silent_craft_pfcp_session_est_packet
    |apply makes_craft_pfcp_session_est_packet|intros pkt Hpkt].
  by apply sends_exchange.
Qed.

Lemma sends_modify_pfcp_sessions src dst args response :
  sends_at_most_one src dst (modify_pfcp_sessions args response).
Proof.
  unfold modify_pfcp_sessions.
  eapply sends_build;
    [apply silent_craft_pfcp_session_modify_packet
    |apply makes_craft_pfcp_session_modify_packet|intros pkt Hpkt].
  by apply sends_exchange.
Qed.

Lemma sends_delete_pfcp_sessions src dst args response :
  sends_at_most_one src dst (delete_pfcp_sessions args response).
Proof.
  unfold delete_pfcp_sessions.
  eapply sends_build;
    [apply silent_delete_loop|by apply makes_delete_loop|intros [pkt|] Hpkt].
  - apply sends_bind_l; [apply silent_MSG_TYPES_at|intros expected].
    apply sends_bind_r; [|intros _; silent_tac].
    apply sends_send_recv_pfcp. by apply Hpkt.
  - apply sends_silent. silent_tac.
Qed.

Lemma sends_terminate src dst args response :
  sends_at_most_one src dst (terminate args response).
Proof.
  unfold terminate.
  apply sends_bind_l; [apply silent_gets|intros established].
  apply sends_bind_r; [|intros _; silent_tac].
  destruct established; cbn [when]; [|apply sends_silent; silent_tac].
  apply sends_bind_l; [apply silent_print|intros _].
  apply sends_delete_pfcp_sessions.
Qed.

Lemma sends_choice_func src dst c args response :
  sends_at_most_one src dst (choice_func c args response).
Proof.
  destruct c; cbn [choice_func].
  - apply sends_setup_pfcp_association.
  - apply sends_create_pfcp_sessions.
  - apply sends_modify_pfcp_sessions.
  - apply sends_delete_pfcp_sessions.
  - apply sends_teardown_pfcp_association.
  - apply sends_silent. unfold interrupt_association. silent_tac.
  - apply sends_terminate.
Qed.

Lemma sends_send_heartbeat src dst response :
  sends_at_most_one src dst (send_heartbeat response).
Proof.
  unfold send_heartbeat.
  apply sends_bind_l; [apply silent_get_sequence_num|intros seq].
  apply sends_bind_l; [apply silent_MSG_TYPES_at|intros message_type]. cbv zeta.
  eapply sends_build;
    [apply silent_make_packet|apply makes_make_packet|intros pkt Hpkt].
  by apply sends_exchange.
Qed.

(** One event. *)
Lemma step_sends e p :
  ∃ l,
    wire (globals (step e p)) = wire (globals p) ++ l ∧ (length l ≤ 1)%nat ∧
    Forall (addressed (our_addr (globals p)) (peer_addr (globals p))) l ∧
    our_addr (globals (step e p)) = our_addr (globals p) ∧
    peer_addr (globals (step e p)) = peer_addr (globals p).
Proof.
  set (src := our_addr (globals p)). set (dst := peer_addr (globals p)).
  assert (Hnone : ∀ t hb, ∃ l,
            wire (globals (mkProcess t hb (globals p))) = wire (globals p) ++ l ∧
            (length l ≤ 1)%nat ∧ Forall (addressed src dst) l ∧
            our_addr (globals (mkProcess t hb (globals p))) = src ∧
            peer_addr (globals (mkProcess t hb (globals p))) = dst).
  { intros. exists []. rewrite app_nil_r. split_and!; [done|cbn; lia|done..]. }
  destruct e as [args response|response]; cbn [step].
  - unfold handle_user_input_command. destruct (thread1 p); [|apply Hnone..].
    assert (Hc : sends_at_most_one src dst
              (print (Print ("Selected " +:+ choice_desc (choice args)));;
               choice_func (choice args) args response)).
    { apply sends_bind_l; [apply silent_print|intros _]. apply sends_choice_func. }
    destruct (Hc (globals p) eq_refl eq_refl) as (l & Hw & Hl & Hf & Ho & Hp).
    exists l.
    destruct ((print _;; choice_func _ _ _) (globals p)) as [[[]|e] g1];
      cbn [fst snd globals] in *; [done|].
    destruct (is_Exception e); cbn [globals]; [|done]. by destruct g1.
  - unfold send_pfcp_heartbeats_wake. destruct (hb_thread (thread2 p)); [|apply Hnone..].
    destruct (script_terminating (globals p)); [apply Hnone|].
    case_bool_decide; [apply Hnone|].
    destruct (association_established (globals p)); cbn [negb]; [|apply Hnone].
    destruct (sends_send_heartbeat src dst response (globals p) eq_refl eq_refl)
      as (l & Hw & Hl & Hf & Ho & Hp).
    exists l.
    by destruct (send_heartbeat response (globals p)) as [[[]|e] g1].
Qed.

(** X19. Whatever the commands, the replies and the wake-ups: a packet handed
    to the network stays as it was sent and packets are only added after
    it, at most one for every command or wake-up, and every one of them is
    addressed from [our_addr] to [peer_addr], which never change. *)
Theorem one_request_per_event (events : list event) (p : Process) :
  ∃ l,
    wire (globals (run events p)) = wire (globals p) ++ l ∧
    (length l ≤ length events)%nat ∧
    Forall (addressed (our_addr (globals p)) (peer_addr (globals p))) l ∧
    our_addr (globals (run events p)) = our_addr (globals p) ∧
    peer_addr (globals (run events p)) = peer_addr (globals p).
Proof.
  revert p. induction events as [|e es IH]; intros p.
  { exists []. rewrite app_nil_r. split_and!; [done|cbn; lia|done..]. }
  cbn [run foldl]. fold (run es (step e p)).
  destruct (step_sends e p) as (l1 & Hw1 & Hl1 & Hf1 & Ho1 & Hp1).
  destruct (IH (step e p)) as (l2 & Hw2 & Hl2 & Hf2 & Ho2 & Hp2).
  exists (l1 ++ l2). rewrite Hw2, Hw1, Ho2, Hp2, Ho1, Hp1, <-app_assoc.
  split_and!; [done| |apply Forall_app; split; [done|]|done..].
  - rewrite length_app. cbn. lia.
  - by rewrite <-Ho1, <-Hp1.
Qed.
